(** * CITYARRAY security stack: a shallow embedding and its verification

    The development follows the four modules of the SDK's security core:

    - [cityarray/security/tiers.py]: alert tiers, the autonomous template
      allow-list, detection classification and [TierValidator];
    - [cityarray/security/signing.py]: [SignedMessage], [MessageSigner]
      and [MessageVerifier];
    - [cityarray/security/audit.py]: the hash-chained [AuditLogger];
    - [cityarray/display/secure_engine.py]: [SecureDisplayEngine].

    Python library functions the code calls ([json.dumps], [hashlib.sha256],
    Ed25519, [datetime.isoformat] / [datetime.fromisoformat], the iteration
    order of a [set], [repr]) are the fields of the class [Runtime]; the SDK's
    own code is written out over them. *)

From Stdlib Require Import ZArith String Ascii List Floats Lia.
From stdpp Require Import base gmap sets list strings pretty sorting countable.

Set Warnings "-register-all,-inexact-float,-abstract-large-number,-clear-no-such-hyp".
#[local] Open Scope string_scope.
#[local] Open Scope Z_scope.

(* ================================================================== *)
(** * Python values *)
(* ================================================================== *)

(** JSON-serialisable values: what a message's [content] and an audit
    event's [data] hold.  A dict is a finite map whose keys are all strings
    ([JObj]) or all integers ([JIntObj]); [json.dumps] accepts both and
    writes an integer key as its decimal string. *)
Inductive Json : Type :=
  | JNull
  | JBool (b : bool)
  | JInt (z : Z)
  | JFloat (f : float)
  | JStr (s : string)
  | JArr (l : list Json)
  | JObj (o : gmap string Json)
  | JIntObj (o : gmap Z Json).

(** The members of an object (none for another value). *)
Definition json_object (v : Json) : gmap string Json :=
  match v with
  | JObj o => o
  | _ => ∅
  end.

(** [json.loads(json.dumps(v))]: the value that is read back from the JSON
    text of [v].  A dict with integer keys comes back with the decimal
    strings of its keys; everything else comes back as it was. *)
Fixpoint json_reload (v : Json) : Json :=
  match v with
  | JArr l => JArr (json_reload <$> l)
  | JObj o => JObj (json_reload <$> o)
  | JIntObj o =>
      JObj (list_to_map
              ((fun kv : Z * Json => (pretty kv.1, kv.2))
                 <$> map_to_list (json_reload <$> o)))
  | _ => v
  end.

(** The size of a value: one more than the sizes of its parts. *)
Fixpoint json_size (v : Json) : nat :=
  match v with
  | JArr l => S (sum_list (json_size <$> l))
  | JObj o => S (sum_list ((map_to_list (json_size <$> o)).*2))
  | JIntObj o => S (sum_list ((map_to_list (json_size <$> o)).*2))
  | _ => 1%nat
  end.

(** The exceptions the security core raises or lets escape, each with its
    message. *)
Inductive exn : Type :=
  | ValueError (msg : string)
  | TypeError (msg : string)
  | SignatureError (msg : string)
  | MessageExpiredError (msg : string)
  | ReplayDetectedError (msg : string).

(** What [datetime.fromisoformat] makes of a string: an aware datetime (an
    instant, in microseconds since the epoch), a naive one (no UTC offset in
    the string), or a [ValueError]. *)
Inductive IsoParse : Type :=
  | IsoAware (t : Z)
  | IsoNaive (t : Z)
  | IsoError (msg : string).

(** [s.replace(old, new)] for a non-empty [old]: left to right, occurrences
    do not overlap.  [skip] counts the characters of a match still to drop. *)
Fixpoint replace_from (old new : string) (skip : nat) (s : string) : string :=
  match s with
  | EmptyString => EmptyString
  | String c s' =>
      match skip with
      | S k => replace_from old new k s'
      | O =>
          if String.prefix old s
          then new ++ replace_from old new (String.length old - 1) s'
          else String c (replace_from old new 0 s')
      end
  end.

Definition replace (old new s : string) : string := replace_from old new 0 s.

(** [s.startswith(p)] *)
Definition startswith (s p : string) : bool := String.prefix p s.

(** [x or y] on an optional string: [None] and the empty string are falsy. *)
Definition str_or (x : option string) (y : string) : string :=
  match x with
  | Some s => if decide (s = "") then y else s
  | None => y
  end.

(** The Python runtime and libraries under the SDK. *)
Class Runtime : Type := {
  (** the module-level flag of signing.py: the [cryptography] import worked *)
  CRYPTO_AVAILABLE : bool;
  (** [json.dumps(v, sort_keys=True, separators=(',', ':')).encode('utf-8')] *)
  json_dumps : Json -> string;
  (** [hashlib.sha256(b).hexdigest()] *)
  sha256_hexdigest : string -> string;
  sha256_hexdigest_nonempty : forall b, sha256_hexdigest b <> "";
  (** [repr(v)] of a JSON value *)
  py_repr : Json -> string;
  (** [dt.isoformat()] of the aware UTC datetime at an instant *)
  isoformat : Z -> string;
  (** [datetime.fromisoformat(s)] *)
  fromisoformat : string -> IsoParse;
  (** Ed25519 on raw bytes: public key of a private key, sign, verify
      ([false] stands for [InvalidSignature]) *)
  ed25519_public_bytes : string -> string;
  ed25519_sign : string -> string -> string;
  ed25519_verify : string -> string -> string -> bool;
  ed25519_correct : forall key payload,
    ed25519_verify (ed25519_public_bytes key) (ed25519_sign key payload) payload
    = true;
  (** [b.hex()] and [bytes.fromhex(s)], the latter with its [ValueError] *)
  bytes_hex : string -> string;
  bytes_fromhex : string -> string + string;
  bytes_fromhex_hex : forall b, bytes_fromhex (bytes_hex b) = inr b;
  (** [list(s)] of a set of strings: some enumeration of its elements *)
  set_iter : gset string -> list string;
  set_iter_perm : forall s, set_iter s ≡ₚ elements s;
  (** whether an append to the audit log file made at this instant goes
      through; when it does not, [open], [write] or [flush] raises *)
  file_append_ok : Z -> bool
}.

(** [f"{v}"]: a string prints as itself, any other value as its repr. *)
Definition py_str `{Runtime} (v : Json) : string :=
  match v with
  | JStr s => s
  | _ => py_repr v
  end.

(** [f"{x}"] of an optional string ([dict.get] without default). *)
Definition py_str_opt (x : option string) : string :=
  match x with
  | Some s => s
  | None => "None"
  end.

(* ================================================================== *)
(** * tiers.py *)
(* ================================================================== *)

Inductive AlertTier : Type :=
  | INFORMATIONAL
  | ADVISORY
  | WARNING
  | EMERGENCY
  | IPAWS.

#[global] Instance AlertTier_eq_dec : EqDecision AlertTier.
Proof. solve_decision. Defined.

(** [tier.value] *)
Definition tier_value (t : AlertTier) : string :=
  match t with
  | INFORMATIONAL => "informational"
  | ADVISORY => "advisory"
  | WARNING => "warning"
  | EMERGENCY => "emergency"
  | IPAWS => "ipaws"
  end.

Definition all_tiers : list AlertTier :=
  [INFORMATIONAL; ADVISORY; WARNING; EMERGENCY; IPAWS].

(** [AlertTier(s)]: the member whose value is [s]; [None] stands for the
    [ValueError] of an unknown value. *)
Definition AlertTier_of_value (s : string) : option AlertTier :=
  List.find (fun t => bool_decide (tier_value t = s)) all_tiers.

Definition requires_human (t : AlertTier) : bool :=
  bool_decide (t ∈ [WARNING; EMERGENCY]).

Definition requires_multiparty (t : AlertTier) : bool :=
  bool_decide (t = EMERGENCY).

Definition min_authorizations (t : AlertTier) : nat :=
  if decide (t = EMERGENCY) then 2%nat
  else if decide (t = WARNING) then 1%nat
  else 0%nat.

(** [d.get(k, default)] on a dict written as a literal. *)
Definition dict_get {K V} `{EqDecision K} (d : list (K * V)) (k : K) (default : V) : V :=
  match List.find (fun kv => bool_decide (kv.1 = k)) d with
  | Some kv => kv.2
  | None => default
  end.

Definition max_latency_seconds (t : AlertTier) : Z :=
  dict_get [(INFORMATIONAL, 1); (ADVISORY, 2); (WARNING, 60);
            (EMERGENCY, 120); (IPAWS, 5)] t 60.

Definition ttl_seconds (t : AlertTier) : Z :=
  dict_get [(INFORMATIONAL, 300); (ADVISORY, 600); (WARNING, 900);
            (EMERGENCY, 1800); (IPAWS, 3600)] t 300.

(** Pre-approved message templates for autonomous tiers. *)
Definition AUTONOMOUS_TEMPLATES : list (AlertTier * list string) :=
  [ (INFORMATIONAL,
      ["crowd-count"; "weather-current"; "time-display"; "event-info";
       "wayfinding"]);
    (ADVISORY,
      ["area-congested"; "weather-advisory"; "event-starting";
       "event-ending"; "alternate-route"]) ].

(** [confidence >= x] on floats: false when [confidence] is NaN. *)
Definition float_ge (c x : float) : bool := PrimFloat.leb x c.

Definition get_tier_for_detection (detection_type : string) (confidence : float)
  : AlertTier :=
  if bool_decide (detection_type ∈ ["fire"; "active_shooter"; "explosion"]) then
    if float_ge confidence 0.9 then EMERGENCY
    else if float_ge confidence 0.7 then WARNING
    else ADVISORY
  else if bool_decide (detection_type ∈ ["smoke"; "fight"; "medical_emergency"]) then
    if float_ge confidence 0.85 then WARNING
    else ADVISORY
  else if bool_decide (detection_type ∈ ["crowd"; "congestion"; "weather"]) then
    INFORMATIONAL
  else ADVISORY.

(** [template_id in allowed]: a value that is not a string equals none of
    the allow-list's strings. *)
Definition json_in_strings (v : Json) (l : list string) : bool :=
  match v with
  | JStr s => bool_decide (s ∈ l)
  | _ => false
  end.

Definition is_template_autonomous (tier : AlertTier) (template_id : Json) : bool :=
  if requires_human tier then false
  else json_in_strings template_id (dict_get AUTONOMOUS_TEMPLATES tier []).

(** An authorization record as [validate] receives it: a dict of strings. *)
Abbreviation AuthDict := (gmap string string).

Record TierValidator : Type := {
  allowed_operators : option (gset string)
}.

(** [TierValidator(allowed_operators)]: an absent or empty list allows every
    operator. *)
Definition TierValidator_init (allowed : option (list string)) : TierValidator :=
  {| allowed_operators :=
       match allowed with
       | Some (x :: l) => Some (list_to_set (x :: l))
       | _ => None
       end |}.

(** The arguments [display] passes to [validate]. *)
Definition template_id_of (content : gmap string Json) : Json :=
  default (JStr "unknown") (content !! "template_id").

(** The first authorization whose operator is outside the allow-list. *)
Definition first_unauthorized (allowed : gset string) (authorizations : list AuthDict)
  : option (option string) :=
  List.find
    (fun op_id => match op_id with
                  | Some o => bool_decide (o ∉ allowed)
                  | None => true
                  end)
    ((fun a : AuthDict => a !! "operator_id") <$> authorizations).

Definition validate `{Runtime} (self : TierValidator) (tier : AlertTier)
    (template_id : Json) (authorizations : list AuthDict)
  : bool * option string :=
  if negb (requires_human tier) then
    if is_template_autonomous tier template_id then (true, None)
    else (false, Some ("Template '" ++ py_str template_id
                         ++ "' not approved for autonomous " ++ tier_value tier))
  else if bool_decide (length authorizations < min_authorizations tier)%nat then
    (false, Some ("Need " ++ pretty (min_authorizations tier)
                    ++ " authorizations, got " ++ pretty (length authorizations)))
  else
    match
      match allowed_operators self with
      | Some allowed =>
          if decide (allowed = ∅) then None
          else first_unauthorized allowed authorizations
      | None => None
      end
    with
    | Some op_id =>
        (false, Some ("Operator '" ++ py_str_opt op_id ++ "' not authorized"))
    | None =>
        let operator_ids :=
          (fun a : AuthDict => a !! "operator_id") <$> authorizations in
        if requires_multiparty tier
           && negb (bool_decide
                      (length operator_ids
                       = size (list_to_set operator_ids : gset (option string))))
        then (false, Some "Multi-party authorization requires different operators")
        else (true, None)
    end.

(* ================================================================== *)
(** * Exceptions over mutable state *)
(* ================================================================== *)

(** A method that may raise and may mutate [self]: from the state before to
    the outcome and the state after.  A raise keeps the mutations made before
    it, as in Python. *)
Definition M (S A : Type) : Type := S -> (exn + A) * S.

#[global] Instance M_ret {S} : MRet (M S) := fun A a s => (inr a, s).

#[global] Instance M_bind {S} : MBind (M S) := fun A B k m s =>
  match m s with
  | (inr a, s') => k a s'
  | (inl e, s') => (inl e, s')
  end.

Definition raise {S A} (e : exn) : M S A := fun s => (inl e, s).
Definition get_self {S} : M S S := fun s => (inr s, s).
Definition modify_self {S} (f : S -> S) : M S unit := fun s => (inr tt, f s).
Definition lift_exn {S A} (r : exn + A) : M S A := fun s => (r, s).

(** [if b: body] *)
Definition when {S} (b : bool) (body : M S unit) : M S unit :=
  if b then body else mret tt.

(* ================================================================== *)
(** * signing.py *)
(* ================================================================== *)

Module Authorization.

Record t : Type := {
  operator_id : string;
  timestamp : string;
  method : string
}.

Definition to_dict (self : t) : AuthDict :=
  list_to_map [("operator_id", operator_id self);
               ("timestamp", timestamp self);
               ("method", method self)].

End Authorization.

Module SignedMessage.

Record t : Type := {
  message_id : string;
  device_id : string;
  timestamp : string;
  expires : string;
  nonce : string;
  tier : string;
  content : gmap string Json;
  authorizations : list Authorization.t;
  signature : option string
}.

(** The dict [payload_for_signing] serialises: every field but [signature]. *)
Definition payload (self : t) : Json :=
  JObj (list_to_map
    [("message_id", JStr (message_id self));
     ("device_id", JStr (device_id self));
     ("timestamp", JStr (timestamp self));
     ("expires", JStr (expires self));
     ("nonce", JStr (nonce self));
     ("tier", JStr (tier self));
     ("content", JObj (content self));
     ("authorizations",
        JArr ((fun a => JObj (JStr <$> Authorization.to_dict a))
                <$> authorizations self))]).

Definition payload_for_signing `{Runtime} (self : t) : string :=
  json_dumps (payload self).

(** [is_expired], reading the clock as [now].  A string without UTC offset
    parses to a naive datetime, which [>] refuses to compare with the aware
    [now]. *)
Definition is_expired `{Runtime} (self : t) (now : Z) : exn + bool :=
  match fromisoformat (replace "Z" "+00:00" (expires self)) with
  | IsoAware expires_dt => inr (bool_decide (expires_dt < now))
  | IsoNaive _ =>
      inl (TypeError "can't compare offset-naive and offset-aware datetimes")
  | IsoError msg => inl (ValueError msg)
  end.

Definition with_signature (self : t) (sig : option string) : t :=
  {| message_id := message_id self; device_id := device_id self;
     timestamp := timestamp self; expires := expires self;
     nonce := nonce self; tier := tier self; content := content self;
     authorizations := authorizations self; signature := sig |}.

(** A message with one signed field replaced after signing. *)
Definition with_device_id (self : t) (d : string) : t :=
  {| message_id := message_id self; device_id := d;
     timestamp := timestamp self; expires := expires self;
     nonce := nonce self; tier := tier self; content := content self;
     authorizations := authorizations self; signature := signature self |}.

Definition with_expires (self : t) (e : string) : t :=
  {| message_id := message_id self; device_id := device_id self;
     timestamp := timestamp self; expires := e;
     nonce := nonce self; tier := tier self; content := content self;
     authorizations := authorizations self; signature := signature self |}.

Definition with_content (self : t) (c : gmap string Json) : t :=
  {| message_id := message_id self; device_id := device_id self;
     timestamp := timestamp self; expires := expires self;
     nonce := nonce self; tier := tier self; content := c;
     authorizations := authorizations self; signature := signature self |}.

End SignedMessage.

Module MessageSigner.

Record t : Type := {
  _private_key : option string;
  _public_key_bytes : string
}.

(** [MessageSigner(private_key)]; [generated] is the key
    [Ed25519PrivateKey.generate()] draws when none is given. *)
Definition init `{Runtime} (private_key : option string) (generated : string) : t :=
  if negb CRYPTO_AVAILABLE then
    {| _private_key := None;
       _public_key_bytes := "DEVELOPMENT_PUBLIC_KEY_STUB_32B" |}
  else
    let key := match private_key with
               | None => generated
               | Some k => String.substring 0 32 k
               end in
    {| _private_key := Some key;
       _public_key_bytes := ed25519_public_bytes key |}.

Definition public_key (self : t) : string := _public_key_bytes self.

(** The signature [sign] computes for a payload. *)
Definition signature_for `{Runtime} (self : t) (payload : string) : string :=
  match _private_key self with
  | Some key =>
      if negb CRYPTO_AVAILABLE then "DEV:" ++ sha256_hexdigest payload
      else bytes_hex (ed25519_sign key payload)
  | None => "DEV:" ++ sha256_hexdigest payload
  end.

Definition sign `{Runtime} (self : t) (message : SignedMessage.t) : SignedMessage.t :=
  let payload := SignedMessage.payload_for_signing message in
  SignedMessage.with_signature message (Some (signature_for self payload)).

(** [n.isoformat().replace('+00:00', 'Z')] *)
Definition isoformat_z `{Runtime} (n : Z) : string :=
  replace "+00:00" "Z" (isoformat n).

(** [create_signed_message]; [now] is the clock reading, [message_id] and
    [nonce] the two [secrets.token_hex(16)] draws; [ttl_seconds] is an [int],
    so the expiry is [now] plus that many million microseconds. *)
Definition create_signed_message `{Runtime} (self : t)
    (device_id tier : string) (content : gmap string Json) (ttl_seconds : Z)
    (authorizations : option (list Authorization.t))
    (now : Z) (message_id nonce : string) : SignedMessage.t :=
  sign self
    {| SignedMessage.message_id := message_id;
       SignedMessage.device_id := device_id;
       SignedMessage.timestamp := isoformat_z now;
       SignedMessage.expires := isoformat_z (now + ttl_seconds * 1000000);
       SignedMessage.nonce := nonce;
       SignedMessage.tier := tier;
       SignedMessage.content := content;
       SignedMessage.authorizations := default [] authorizations;
       SignedMessage.signature := None |}.

End MessageSigner.

Module MessageVerifier.

Record t : Type := {
  device_id : string;
  _seen_nonces : gset string;
  _max_nonces : nat;
  _public_key : option string
}.

Definition init `{Runtime} (public_key : string) (device_id : string) : t :=
  {| device_id := device_id;
     _seen_nonces := ∅;
     _max_nonces := 10000;
     _public_key := if CRYPTO_AVAILABLE then Some public_key else None |}.

Definition set_seen (self : t) (s : gset string) : t :=
  {| device_id := device_id self; _seen_nonces := s;
     _max_nonces := _max_nonces self; _public_key := _public_key self |}.

(** The device binding test of [verify] (its first step). *)
Definition device_mismatch (self : t) (message : SignedMessage.t) : bool :=
  bool_decide (SignedMessage.device_id message ≠ device_id self)
  && bool_decide (SignedMessage.device_id message ≠ "*").

(** The signature check of [verify] (its fourth step). *)
Definition check_signature `{Runtime} (self : t) (message : SignedMessage.t)
  : M t unit :=
  match SignedMessage.signature message with
  | None => raise (SignatureError "Message has no signature")
  | Some sig =>
      let payload := SignedMessage.payload_for_signing message in
      match _public_key self with
      | Some public_key =>
          if negb CRYPTO_AVAILABLE then
            if startswith sig "DEV:" then
              when (bool_decide (sig ≠ "DEV:" ++ sha256_hexdigest payload))
                (raise (SignatureError "Invalid development stub signature"))
            else
              raise (SignatureError "Production signature but crypto not available")
          else
            match bytes_fromhex sig with
            | inl e => raise (SignatureError ("Malformed signature: " ++ e))
            | inr signature_bytes =>
                if ed25519_verify public_key signature_bytes payload
                then mret tt
                else raise (SignatureError
                              ("Invalid signature for message "
                                 ++ SignedMessage.message_id message))
            end
      | None =>
          if startswith sig "DEV:" then
            when (bool_decide (sig ≠ "DEV:" ++ sha256_hexdigest payload))
              (raise (SignatureError "Invalid development stub signature"))
          else
            raise (SignatureError "Production signature but crypto not available")
      end
  end.

(** Recording a nonce: add it, and past the capacity discard the first
    [_max_nonces // 2] elements the set enumerates. *)
Definition record_nonce `{Runtime} (nonce : string) : M t unit :=
  modify_self (fun self => set_seen self ({[nonce]} ∪ _seen_nonces self));;
  self ← get_self;
  when (bool_decide (_max_nonces self < size (_seen_nonces self))%nat)
    (let to_remove :=
       take (_max_nonces self / 2)%nat (set_iter (_seen_nonces self)) in
     modify_self (fun self =>
       set_seen self (_seen_nonces self ∖ list_to_set to_remove))).

(** [verify(message)], reading the clock as [now]. *)
Definition verify `{Runtime} (message : SignedMessage.t) (now : Z) : M t bool :=
  self ← get_self;
  when (device_mismatch self message)
    (raise (ValueError ("Message for device " ++ SignedMessage.device_id message
                          ++ ", not " ++ device_id self)));;
  expired ← lift_exn (SignedMessage.is_expired message now);
  when expired
    (raise (MessageExpiredError
              ("Message " ++ SignedMessage.message_id message
                 ++ " expired at " ++ SignedMessage.expires message)));;
  when (bool_decide (SignedMessage.nonce message ∈ _seen_nonces self))
    (raise (ReplayDetectedError
              ("Nonce " ++ SignedMessage.nonce message
                 ++ " already seen - replay attack?")));;
  check_signature self message;;
  record_nonce (SignedMessage.nonce message);;
  mret true.

(** The seen-set after [record_nonce]. *)
Definition recorded `{Runtime} (nonce : string) (v : t) : gset string :=
  let seen := {[nonce]} ∪ _seen_nonces v in
  if bool_decide (_max_nonces v < size seen)%nat
  then seen ∖ list_to_set (take (_max_nonces v / 2)%nat (set_iter seen))
  else seen.

(** The verifier holds the public key of the signer (or, without the
    [cryptography] package, none). *)
Definition paired `{Runtime} (signer : MessageSigner.t) (v : t) : Prop :=
  _public_key v = _public_key (init (MessageSigner.public_key signer) (device_id v)).

(** A run of [verify] calls on one verifier: the verifier after them. *)
Fixpoint verify_all `{Runtime} (calls : list (SignedMessage.t * Z)) (self : t) : t :=
  match calls with
  | [] => self
  | (message, now) :: rest => verify_all rest (verify message now self).2
  end.

(** [verify_safe]: the four exceptions it names become [(False, str(e))];
    any other propagates. *)
Definition verify_safe `{Runtime} (message : SignedMessage.t) (now : Z)
  : M t (bool * option string) :=
  fun self =>
    match verify message now self with
    | (inr _, self') => (inr (true, None), self')
    | (inl (TypeError msg), self') => (inl (TypeError msg), self')
    | (inl (ValueError msg), self')
    | (inl (SignatureError msg), self')
    | (inl (MessageExpiredError msg), self')
    | (inl (ReplayDetectedError msg), self') => (inr (false, Some msg), self')
    end.

End MessageVerifier.

(* ================================================================== *)
(** * audit.py *)
(* ================================================================== *)

Inductive AuditEventType : Type :=
  | MESSAGE_DISPLAYED | MESSAGE_CLEARED | MESSAGE_REJECTED
  | AUTHORIZATION_REQUESTED | AUTHORIZATION_GRANTED | AUTHORIZATION_DENIED
  | DETECTION_EVENT | DETECTION_SUPPRESSED
  | SIGNATURE_INVALID | SIGNATURE_VALID | REPLAY_DETECTED | TAMPER_DETECTED
  | KEY_ROTATED | CERTIFICATE_UPDATED
  | SYSTEM_BOOT | SYSTEM_SHUTDOWN | CONFIG_CHANGED | UPDATE_APPLIED
  | UPDATE_REJECTED | NETWORK_CONNECTED | NETWORK_DISCONNECTED.

(** [event_type.value] *)
Definition event_type_value (e : AuditEventType) : string :=
  match e with
  | MESSAGE_DISPLAYED => "message_displayed"
  | MESSAGE_CLEARED => "message_cleared"
  | MESSAGE_REJECTED => "message_rejected"
  | AUTHORIZATION_REQUESTED => "auth_requested"
  | AUTHORIZATION_GRANTED => "auth_granted"
  | AUTHORIZATION_DENIED => "auth_denied"
  | DETECTION_EVENT => "detection"
  | DETECTION_SUPPRESSED => "detection_suppressed"
  | SIGNATURE_INVALID => "sig_invalid"
  | SIGNATURE_VALID => "sig_valid"
  | REPLAY_DETECTED => "replay_detected"
  | TAMPER_DETECTED => "tamper_detected"
  | KEY_ROTATED => "key_rotated"
  | CERTIFICATE_UPDATED => "cert_updated"
  | SYSTEM_BOOT => "boot"
  | SYSTEM_SHUTDOWN => "shutdown"
  | CONFIG_CHANGED => "config_changed"
  | UPDATE_APPLIED => "update_applied"
  | UPDATE_REJECTED => "update_rejected"
  | NETWORK_CONNECTED => "net_connected"
  | NETWORK_DISCONNECTED => "net_disconnected"
  end.

Module AuditEvent.

Record t : Type := {
  sequence : Z;
  timestamp : string;
  event_type : string;
  device_id : string;
  data : gmap string Json;
  previous_hash : string;
  entry_hash : option string
}.

(** The dict [compute_hash] serialises: every field but [entry_hash]. *)
Definition payload (self : t) : Json :=
  JObj (list_to_map
    [("sequence", JInt (sequence self));
     ("timestamp", JStr (timestamp self));
     ("event_type", JStr (event_type self));
     ("device_id", JStr (device_id self));
     ("data", JObj (data self));
     ("previous_hash", JStr (previous_hash self))]).

Definition compute_hash `{Runtime} (self : t) : string :=
  sha256_hexdigest (json_dumps (payload self)).

Definition with_entry_hash (self : t) (h : option string) : t :=
  {| sequence := sequence self; timestamp := timestamp self;
     event_type := event_type self; device_id := device_id self;
     data := data self; previous_hash := previous_hash self;
     entry_hash := h |}.

(** [AuditEvent.from_json(self.to_json())]: the record a reader gets from
    the line written for [self].  The number, the strings and the optional
    hash come back as they were; [data] comes back as [json.loads] gives
    it. *)
Definition stored (self : t) : t :=
  {| sequence := sequence self; timestamp := timestamp self;
     event_type := event_type self; device_id := device_id self;
     data := json_reload <$> data self; previous_hash := previous_hash self;
     entry_hash := entry_hash self |}.

(** A stored record with one field replaced. *)
Definition with_sequence (self : t) (n : Z) : t :=
  {| sequence := n; timestamp := timestamp self;
     event_type := event_type self; device_id := device_id self;
     data := data self; previous_hash := previous_hash self;
     entry_hash := entry_hash self |}.

Definition with_data (self : t) (d : gmap string Json) : t :=
  {| sequence := sequence self; timestamp := timestamp self;
     event_type := event_type self; device_id := device_id self;
     data := d; previous_hash := previous_hash self;
     entry_hash := entry_hash self |}.

End AuditEvent.

(** A line of the log file as the readers see it: blank after [strip()]
    (skipped), text that [from_json] reads as the record [e], or text on
    which it raises. *)
Inductive LogLine : Type :=
  | Blank
  | Entry (e : AuditEvent.t)
  | Malformed.

(** Editing the record on a line of the file. *)
Definition map_entry (f : AuditEvent.t -> AuditEvent.t) (l : LogLine) : LogLine :=
  match l with
  | Entry e => Entry (f e)
  | _ => l
  end.

(** The file at [log_path]: [None] when there is none. *)
Abbreviation LogFile := (option (list LogLine)).

Module AuditLogger.

Record t : Type := {
  device_id : string;
  _sequence : Z;
  _last_hash : string
}.

(** Genesis hash for the first entry in the chain: ["0" * 64]. *)
Definition GENESIS_HASH : string := String.concat "" (replicate 64 "0").

(** A logger on a fresh chain. *)
Definition fresh (device_id : string) : t :=
  {| device_id := device_id; _sequence := 0; _last_hash := GENESIS_HASH |}.

(** [_write_event], called at the instant [now]: append the line
    [event.to_json()], creating the file if there is none.  An exception
    while opening or writing is caught and only reported: the file then
    stays as it was. *)
Definition _write_event `{Runtime} (file : LogFile) (event : AuditEvent.t)
    (now : Z) : LogFile :=
  if file_append_ok now
  then Some ((default [] file ++ [Entry (AuditEvent.stored event)])%list)
  else file.

(** [log(event_type, data, timestamp)] at the instant [now], which is the
    clock reading when no timestamp is given: the event, the logger after
    and the file after.  The logger moves on to the new event whether or not
    the write goes through. *)
Definition log `{Runtime} (self : t) (file : LogFile)
    (event_type : AuditEventType) (data : gmap string Json)
    (timestamp : option Z) (now : Z) : AuditEvent.t * t * LogFile :=
  let sequence := _sequence self + 1 in
  let ts := default now timestamp in
  let ts_str := replace "+00:00" "Z" (isoformat ts) in
  let event :=
    {| AuditEvent.sequence := sequence;
       AuditEvent.timestamp := ts_str;
       AuditEvent.event_type := event_type_value event_type;
       AuditEvent.device_id := device_id self;
       AuditEvent.data := data;
       AuditEvent.previous_hash := _last_hash self;
       AuditEvent.entry_hash := None |} in
  let entry_hash := AuditEvent.compute_hash event in
  let event := AuditEvent.with_entry_hash event (Some entry_hash) in
  (event,
   {| device_id := device_id self; _sequence := sequence;
      _last_hash := entry_hash |},
   _write_event file event now).

(** The loop of [_load_existing] over the open file.  [pos] is the reader's
    position; the [TAMPER_DETECTED] events the loop logs are appended to the
    very file it is reading, so the reader meets them later.  [clock pos] is
    the clock reading while the line at [pos] is processed.  The result is
    [None] when [fuel] lines were read without reaching the end; otherwise
    whether the loop ended normally ([false]: [from_json] raised), the logger
    and the file. *)
Fixpoint load_loop `{Runtime} (fuel pos : nat) (clock : nat -> Z) (self : t)
    (lines : list LogLine) : option (bool * t * list LogLine) :=
  match fuel with
  | O => None
  | S fuel' =>
      match lines !! pos with
      | None => Some (true, self, lines)
      | Some Blank => load_loop fuel' (S pos) clock self lines
      | Some Malformed => Some (false, self, lines)
      | Some (Entry event) =>
          let '(self1, lines1) :=
            if bool_decide (AuditEvent.previous_hash event ≠ _last_hash self) then
              let '(_, s, f) :=
                log self (Some lines) TAMPER_DETECTED
                  (list_to_map
                     [("sequence", JInt (AuditEvent.sequence event));
                      ("expected_hash", JStr (_last_hash self));
                      ("actual_hash", JStr (AuditEvent.previous_hash event))])
                  None (clock pos) in
              (s, default lines f)
            else (self, lines) in
          let computed_hash := AuditEvent.compute_hash event in
          load_loop fuel' (S pos) clock
            {| device_id := device_id self1;
               _sequence := AuditEvent.sequence event;
               _last_hash := str_or (AuditEvent.entry_hash event) computed_hash |}
            lines1
      end
  end.

(** [_load_existing]: nothing to do without a file; an exception while
    reading resets the logger to a fresh chain. *)
Definition _load_existing `{Runtime} (fuel : nat) (clock : nat -> Z) (self : t)
    (file : LogFile) : option (t * LogFile) :=
  match file with
  | None => Some (self, None)
  | Some lines =>
      match load_loop fuel 0 clock self lines with
      | None => None
      | Some (true, self', lines') => Some (self', Some lines')
      | Some (false, self', lines') =>
          Some ({| device_id := device_id self'; _sequence := 0;
                   _last_hash := GENESIS_HASH |}, Some lines')
      end
  end.

(** [AuditLogger(device_id, log_path)] over the file at [log_path]. *)
Definition init `{Runtime} (fuel : nat) (clock : nat -> Z) (device_id : string)
    (file : LogFile) : option (t * LogFile) :=
  _load_existing fuel clock (fresh device_id) file.

(** The loop of [verify_chain]: the running hash and the broken sequence
    numbers when the file is read through, or [None] when [from_json]
    raises. *)
Fixpoint chain_loop `{Runtime} (lines : list LogLine) (last_hash : string)
    (broken : list Z) : option (string * list Z) :=
  match lines with
  | [] => Some (last_hash, broken)
  | Blank :: rest => chain_loop rest last_hash broken
  | Malformed :: _ => None
  | Entry event :: rest =>
      let broken :=
        if bool_decide (AuditEvent.previous_hash event ≠ last_hash)
        then (broken ++ [AuditEvent.sequence event])%list else broken in
      let computed := AuditEvent.compute_hash event in
      let broken :=
        if bool_decide (AuditEvent.entry_hash event ≠ Some computed)
        then (broken ++ [AuditEvent.sequence event])%list else broken in
      chain_loop rest (str_or (AuditEvent.entry_hash event) computed) broken
  end.

(** [verify_chain()]; [-1] reports a file-level error. *)
Definition verify_chain `{Runtime} (file : LogFile) : bool * list Z :=
  match file with
  | None => (false, [-1])
  | Some lines =>
      match chain_loop lines GENESIS_HASH [] with
      | Some (_, broken) => (bool_decide (length broken = 0%nat), broken)
      | None => (false, [-1])
      end
  end.

(** A run of [log] calls, each with its event type, data, optional
    timestamp and clock reading: the logger and the file after them. *)
Fixpoint log_all `{Runtime}
    (calls : list (AuditEventType * gmap string Json * option Z * Z))
    (self : t) (file : LogFile) : t * LogFile :=
  match calls with
  | [] => (self, file)
  | (event_type, data, timestamp, now) :: rest =>
      let '(_, self', file') := log self file event_type data timestamp now in
      log_all rest self' file'
  end.

Definition log_message_displayed `{Runtime} (self : t) (file : LogFile)
    (message_id tier content_hash : string) (now : Z) :=
  log self file MESSAGE_DISPLAYED
    (list_to_map [("message_id", JStr message_id); ("tier", JStr tier);
                  ("content_hash", JStr content_hash)]) None now.

Definition log_message_rejected `{Runtime} (self : t) (file : LogFile)
    (message_id : string) (reason : Json) (now : Z) :=
  log self file MESSAGE_REJECTED
    (list_to_map [("message_id", JStr message_id); ("reason", reason)]) None now.

Definition log_signature_invalid `{Runtime} (self : t) (file : LogFile)
    (message_id error : string) (now : Z) :=
  log self file SIGNATURE_INVALID
    (list_to_map [("message_id", JStr message_id); ("error", JStr error)]) None now.

End AuditLogger.

(* ================================================================== *)
(** * secure_engine.py *)
(* ================================================================== *)

Record DisplayResult : Type := {
  success : bool;
  message_id : option string;
  error : option string;
  displayed_at : option string
}.

(** What a call of [backend.render] does: return a truth value or raise. *)
Inductive RenderOutcome : Type :=
  | RenderReturned (ok : bool)
  | RenderRaised (msg : string).

(** The abstract base class [SecureDisplayBackend]: a backend with state of
    type [B]. *)
Class SecureDisplayBackend (B : Type) : Type := {
  render : B -> gmap string Json -> RenderOutcome * B;
  clear : B -> bool * B;
  get_capabilities : B -> gmap string Json
}.

(** A call of one of the two callbacks; an exception in a callback is
    swallowed by the engine. *)
Inductive CallbackCall : Type :=
  | OnDisplay (message : SignedMessage.t)
  | OnReject (message : SignedMessage.t) (reason : string).

Module SecureDisplayEngine.

Record t (B : Type) : Type := {
  device_id : string;
  backend : B;
  verifier : MessageVerifier.t;
  audit : AuditLogger.t;
  (** the file behind [audit] *)
  audit_file : LogFile;
  tier_validator : TierValidator;
  _current_message : option SignedMessage.t;
  (** whether each callback is set, and the calls made so far *)
  _on_display_callback : bool;
  _on_reject_callback : bool;
  callback_calls : list CallbackCall
}.

Arguments device_id {B}.
Arguments backend {B}.
Arguments verifier {B}.
Arguments audit {B}.
Arguments audit_file {B}.
Arguments tier_validator {B}.
Arguments _current_message {B}.
Arguments _on_display_callback {B}.
Arguments _on_reject_callback {B}.
Arguments callback_calls {B}.

Section methods.
Context `{Runtime} {B : Type} `{SecureDisplayBackend B}.

Definition init (device_id : string) (backend : B) (verifier : MessageVerifier.t)
    (audit : AuditLogger.t) (audit_file : LogFile)
    (tier_validator : option TierValidator) : t B :=
  {| device_id := device_id; backend := backend; verifier := verifier;
     audit := audit; audit_file := audit_file;
     tier_validator := default (TierValidator_init None) tier_validator;
     _current_message := None;
     _on_display_callback := false; _on_reject_callback := false;
     callback_calls := [] |}.

Definition set_verifier (self : t B) (v : MessageVerifier.t) : t B :=
  {| device_id := device_id self; backend := backend self; verifier := v;
     audit := audit self; audit_file := audit_file self;
     tier_validator := tier_validator self;
     _current_message := _current_message self;
     _on_display_callback := _on_display_callback self;
     _on_reject_callback := _on_reject_callback self;
     callback_calls := callback_calls self |}.

Definition set_audit (self : t B) (a : AuditLogger.t * LogFile) : t B :=
  {| device_id := device_id self; backend := backend self;
     verifier := verifier self;
     audit := a.1; audit_file := a.2;
     tier_validator := tier_validator self;
     _current_message := _current_message self;
     _on_display_callback := _on_display_callback self;
     _on_reject_callback := _on_reject_callback self;
     callback_calls := callback_calls self |}.

Definition set_backend (self : t B) (b : B) : t B :=
  {| device_id := device_id self; backend := b; verifier := verifier self;
     audit := audit self; audit_file := audit_file self;
     tier_validator := tier_validator self;
     _current_message := _current_message self;
     _on_display_callback := _on_display_callback self;
     _on_reject_callback := _on_reject_callback self;
     callback_calls := callback_calls self |}.

Definition set_current (self : t B) (m : option SignedMessage.t) : t B :=
  {| device_id := device_id self; backend := backend self;
     verifier := verifier self;
     audit := audit self; audit_file := audit_file self;
     tier_validator := tier_validator self;
     _current_message := m;
     _on_display_callback := _on_display_callback self;
     _on_reject_callback := _on_reject_callback self;
     callback_calls := callback_calls self |}.

Definition call_back (self : t B) (c : CallbackCall) : t B :=
  {| device_id := device_id self; backend := backend self;
     verifier := verifier self;
     audit := audit self; audit_file := audit_file self;
     tier_validator := tier_validator self;
     _current_message := _current_message self;
     _on_display_callback := _on_display_callback self;
     _on_reject_callback := _on_reject_callback self;
     callback_calls := (callback_calls self ++ [c])%list |}.

Definition set_callbacks (self : t B) (on_display on_reject : bool) : t B :=
  {| device_id := device_id self; backend := backend self;
     verifier := verifier self;
     audit := audit self; audit_file := audit_file self;
     tier_validator := tier_validator self;
     _current_message := _current_message self;
     _on_display_callback := on_display;
     _on_reject_callback := on_reject;
     callback_calls := callback_calls self |}.

(** [_reject]: call the reject callback when one is set. *)
Definition _reject (self : t B) (message : SignedMessage.t) (reason : string) : t B :=
  if _on_reject_callback self then call_back self (OnReject message reason)
  else self.

(** The audit write of a rejection followed by [_reject] and the failure
    result: the tail shared by the rejecting branches of [display]. *)
Definition rejected (self : t B) (message : SignedMessage.t)
    (logged : AuditEvent.t * AuditLogger.t * LogFile) (error : string)
  : (exn + DisplayResult) * t B :=
  (inr {| success := false;
          message_id := Some (SignedMessage.message_id message);
          error := Some error; displayed_at := None |},
   _reject (set_audit self (logged.1.2, logged.2)) message error).

(** The failure result of a render failure: audited, no callback. *)
Definition render_failed (self : t B) (message : SignedMessage.t)
    (logged : AuditEvent.t * AuditLogger.t * LogFile) (error : string)
  : (exn + DisplayResult) * t B :=
  (inr {| success := false;
          message_id := Some (SignedMessage.message_id message);
          error := Some error; displayed_at := None |},
   set_audit self (logged.1.2, logged.2)).

(** [display(message)].  [now] is the clock reading on entry, [now_verify]
    the one [verify] takes and [now_audit] the one the audit write takes. *)
Definition display (message : SignedMessage.t) (now now_verify now_audit : Z)
    (self : t B) : (exn + DisplayResult) * t B :=
  let mid := SignedMessage.message_id message in
  let '(verified, v) := MessageVerifier.verify message now_verify (verifier self) in
  let self := set_verifier self v in
  match verified with
  | inl (SignatureError e) =>
      rejected self message
        (AuditLogger.log_signature_invalid (audit self) (audit_file self) mid e now_audit)
        ("Signature verification failed: " ++ e)
  | inl (MessageExpiredError e) =>
      rejected self message
        (AuditLogger.log_message_rejected (audit self) (audit_file self) mid
           (JStr "expired") now_audit)
        ("Message expired: " ++ e)
  | inl (ReplayDetectedError e) =>
      rejected self message
        (AuditLogger.log (audit self) (audit_file self) REPLAY_DETECTED
           (list_to_map [("message_id", JStr mid);
                         ("nonce", JStr (SignedMessage.nonce message))])
           None now_audit)
        ("Replay attack detected: " ++ e)
  | inl (ValueError e) =>
      rejected self message
        (AuditLogger.log_message_rejected (audit self) (audit_file self) mid
           (JStr e) now_audit)
        ("Invalid message: " ++ e)
  | inl (TypeError e) => (inl (TypeError e), self)
  | inr _ =>
      match AlertTier_of_value (SignedMessage.tier message) with
      | None =>
          let error := "Unknown tier: " ++ SignedMessage.tier message in
          rejected self message
            (AuditLogger.log_message_rejected (audit self) (audit_file self) mid
               (JStr error) now_audit)
            error
      | Some tier =>
          let template_id := template_id_of (SignedMessage.content message) in
          let authorizations :=
            Authorization.to_dict <$> SignedMessage.authorizations message in
          let '(is_valid, tier_error) :=
            validate (tier_validator self) tier template_id authorizations in
          if negb is_valid then
            rejected self message
              (AuditLogger.log_message_rejected (audit self) (audit_file self) mid
                 (from_option JStr JNull tier_error) now_audit)
              ("Tier validation failed: " ++ py_str_opt tier_error)
          else
            let '(outcome, b) := render (backend self) (SignedMessage.content message) in
            let self := set_backend self b in
            match outcome with
            | RenderRaised e =>
                let error := "Render failed: " ++ e in
                render_failed self message
                  (AuditLogger.log_message_rejected (audit self) (audit_file self)
                     mid (JStr error) now_audit)
                  error
            | RenderReturned false =>
                let error := "Backend render returned false" in
                render_failed self message
                  (AuditLogger.log_message_rejected (audit self) (audit_file self)
                     mid (JStr error) now_audit)
                  error
            | RenderReturned true =>
                let content_hash :=
                  String.substring 0 16
                    (sha256_hexdigest (py_repr (JObj (SignedMessage.content message)))) in
                let logged :=
                  AuditLogger.log_message_displayed (audit self) (audit_file self)
                    mid (SignedMessage.tier message) content_hash now_audit in
                let self := set_audit self (logged.1.2, logged.2) in
                let self := set_current self (Some message) in
                let self :=
                  if _on_display_callback self
                  then call_back self (OnDisplay message) else self in
                (inr {| success := true; message_id := Some mid;
                        error := None; displayed_at := Some (isoformat now) |},
                 self)
            end
      end
  end.

(** [clear()], reading the clock as [now_audit] for the audit write. *)
Definition clear (now_audit : Z) (self : t B) : bool * t B :=
  let self :=
    match _current_message self with
    | Some m =>
        let logged :=
          AuditLogger.log (audit self) (audit_file self) MESSAGE_CLEARED
            (list_to_map [("message_id", JStr (SignedMessage.message_id m))])
            None now_audit in
        set_audit self (logged.1.2, logged.2)
    | None => self
    end in
  let self := set_current self None in
  let '(ok, b) := clear (backend self) in
  (ok, set_backend self b).

End methods.

End SecureDisplayEngine.

(** A spy backend: its state is the list of contents [render] was called
    with; [answer] decides what each call does. *)
Definition spy_backend (answer : gmap string Json -> RenderOutcome)
  : SecureDisplayBackend (list (gmap string Json)) :=
  {| render := fun calls content => (answer content, (calls ++ [content])%list);
     clear := fun calls => (true, calls);
     get_capabilities := fun _ => ∅ |}.

(* ================================================================== *)
(** * Sample runtimes *)
(* ================================================================== *)

(** Stand-ins for the library functions, to run the model on concrete
    inputs: a canonical printer for JSON values, a digest without
    collisions (its input behind a tag), a keyed signature that is checked
    by recomputing it, and the ISO strings of a few instants as Python
    prints and reads them. *)

Definition dquote : string := String (ascii_of_nat 34) "".

(** The order [sort_keys=True] puts integer keys in. *)
Definition int_key_le (a b : Z * string) : Prop := a.1 <= b.1.

#[global] Instance int_key_le_dec : RelDecision int_key_le.
Proof. intros a b. unfold int_key_le. apply _. Defined.

Fixpoint sample_json_dumps (v : Json) : string :=
  match v with
  | JNull => "null"
  | JBool b => if b then "true" else "false"
  | JInt z => pretty z
  | JFloat _ => "<float>"
  | JStr s => dquote ++ s ++ dquote
  | JArr l => "[" ++ String.concat "," (sample_json_dumps <$> l) ++ "]"
  | JObj o =>
      "{" ++ String.concat ","
               ((fun kv : string * string => dquote ++ kv.1 ++ dquote ++ ":" ++ kv.2)
                  <$> map_to_list (sample_json_dumps <$> o))
          ++ "}"
  | JIntObj o =>
      "{" ++ String.concat ","
               ((fun kv : Z * string =>
                   dquote ++ pretty kv.1 ++ dquote ++ ":" ++ kv.2)
                  <$> merge_sort int_key_le
                        (map_to_list (sample_json_dumps <$> o)))
          ++ "}"
  end.

(** [isoformat()] at 2026-01-01 00:00:00 UTC, five minutes later and ten
    seconds earlier. *)
Definition sample_isoformat (t : Z) : string :=
  if decide (t = 1767225600000000) then "2026-01-01T00:00:00+00:00"
  else if decide (t = 1767225900000000) then "2026-01-01T00:05:00+00:00"
  else if decide (t = 1767225590000000) then "2025-12-31T23:59:50+00:00"
  else "<" ++ pretty t ++ ">".

(** [fromisoformat] on those strings, on a string without UTC offset, and
    its [ValueError] on the rest. *)
Definition sample_fromisoformat (s : string) : IsoParse :=
  if decide (s = "2026-01-01T00:00:00+00:00") then IsoAware 1767225600000000
  else if decide (s = "2026-01-01T00:05:00+00:00") then IsoAware 1767225900000000
  else if decide (s = "2025-12-31T23:59:50+00:00") then IsoAware 1767225590000000
  else if decide (s = "2030-01-01T00:00:00") then IsoNaive 1893456000000000
  else IsoError ("Invalid isoformat string: '" ++ s ++ "'").

(** A runtime with the given crypto flag and set enumeration. *)
Definition sample_runtime (crypto : bool) (order : gset string -> list string)
    (order_perm : forall s, order s ≡ₚ elements s) : Runtime :=
  {| CRYPTO_AVAILABLE := crypto;
     json_dumps := sample_json_dumps;
     sha256_hexdigest := fun b => "sha256:" ++ b;
     sha256_hexdigest_nonempty := fun b (Heq : "sha256:" ++ b = "") =>
       eq_ind ("sha256:" ++ b)
         (fun s => match s with EmptyString => False | String _ _ => True end)
         I "" Heq;
     py_repr := sample_json_dumps;
     isoformat := sample_isoformat;
     fromisoformat := sample_fromisoformat;
     ed25519_public_bytes := fun key => key;
     ed25519_sign := fun key payload => key ++ payload;
     ed25519_verify := fun public_key sig payload =>
                         bool_decide (sig = public_key ++ payload);
     ed25519_correct := fun key payload =>
                          bool_decide_eq_true_2 _ (eq_refl (key ++ payload));
     bytes_hex := fun b => b;
     bytes_fromhex := fun s => inr s;
     bytes_fromhex_hex := fun b => eq_refl;
     set_iter := order;
     set_iter_perm := order_perm;
     file_append_ok := fun _ => true |}.

(** Without the [cryptography] package: development stub signatures. *)
Definition stub_runtime : Runtime :=
  sample_runtime false elements (fun s => reflexivity (elements s)).

(** With it. *)
Definition crypto_runtime : Runtime :=
  sample_runtime true elements (fun s => reflexivity (elements s)).

(** An enumeration that starts with [n] when the set holds it. *)
Definition order_first (n : string) (s : gset string) : list string :=
  if decide (n ∈ s) then n :: elements (s ∖ {[n]}) else elements s.

Lemma order_first_perm (n : string) (s : gset string) :
  order_first n s ≡ₚ elements s.
Proof.
  unfold order_first. case_decide as Hin; [|done].
  rewrite (union_difference_singleton_L n s Hin) at 2.
  symmetry. apply elements_union_singleton. set_solver.
Qed.

(** A runtime without crypto whose sets enumerate [n] first. *)
Definition evicting_runtime (n : string) : Runtime :=
  sample_runtime false (order_first n) (order_first_perm n).

(** A one-to-one encoding of values as trees, and of trees as numerals. *)
Definition float_tree (f : float) : gen_tree (Z + string) :=
  match Prim2SF f with
  | S754_zero s => GenNode 0 [GenNode (if s then 1 else 0) []]
  | S754_infinity s => GenNode 1 [GenNode (if s then 1 else 0) []]
  | S754_nan => GenNode 2 []
  | S754_finite s m e =>
      GenNode 3 [GenNode (if s then 1 else 0) []; GenLeaf (inl (Zpos m));
                 GenLeaf (inl e)]
  end.

Fixpoint json_tree (v : Json) : gen_tree (Z + string) :=
  match v with
  | JNull => GenNode 0 []
  | JBool b => GenNode (if b then 2 else 1) []
  | JInt z => GenNode 3 [GenLeaf (inl z)]
  | JFloat f => GenNode 4 [float_tree f]
  | JStr s => GenNode 5 [GenLeaf (inr s)]
  | JArr l => GenNode 6 (json_tree <$> l)
  | JObj o =>
      GenNode 7 ((fun kv : string * gen_tree (Z + string) =>
                    GenNode 0 [GenLeaf (inr kv.1); kv.2])
                   <$> map_to_list (json_tree <$> o))
  | JIntObj o =>
      GenNode 8 ((fun kv : Z * gen_tree (Z + string) =>
                    GenNode 0 [GenLeaf (inl kv.1); kv.2])
                   <$> map_to_list (json_tree <$> o))
  end.

Definition canonical_json_dumps (v : Json) : string :=
  pretty (Npos (encode (json_tree v))).

(** A runtime with another JSON encoder, and one with another disk. *)
Definition with_json_dumps (R : Runtime) (dumps : Json -> string) : Runtime :=
  {| CRYPTO_AVAILABLE := @CRYPTO_AVAILABLE R;
     json_dumps := dumps;
     sha256_hexdigest := @sha256_hexdigest R;
     sha256_hexdigest_nonempty := @sha256_hexdigest_nonempty R;
     py_repr := @py_repr R;
     isoformat := @isoformat R;
     fromisoformat := @fromisoformat R;
     ed25519_public_bytes := @ed25519_public_bytes R;
     ed25519_sign := @ed25519_sign R;
     ed25519_verify := @ed25519_verify R;
     ed25519_correct := @ed25519_correct R;
     bytes_hex := @bytes_hex R;
     bytes_fromhex := @bytes_fromhex R;
     bytes_fromhex_hex := @bytes_fromhex_hex R;
     set_iter := @set_iter R;
     set_iter_perm := @set_iter_perm R;
     file_append_ok := @file_append_ok R |}.

Definition with_file_append_ok (R : Runtime) (ok : Z -> bool) : Runtime :=
  {| CRYPTO_AVAILABLE := @CRYPTO_AVAILABLE R;
     json_dumps := @json_dumps R;
     sha256_hexdigest := @sha256_hexdigest R;
     sha256_hexdigest_nonempty := @sha256_hexdigest_nonempty R;
     py_repr := @py_repr R;
     isoformat := @isoformat R;
     fromisoformat := @fromisoformat R;
     ed25519_public_bytes := @ed25519_public_bytes R;
     ed25519_sign := @ed25519_sign R;
     ed25519_verify := @ed25519_verify R;
     ed25519_correct := @ed25519_correct R;
     bytes_hex := @bytes_hex R;
     bytes_fromhex := @bytes_fromhex R;
     bytes_fromhex_hex := @bytes_fromhex_hex R;
     set_iter := @set_iter R;
     set_iter_perm := @set_iter_perm R;
     file_append_ok := ok |}.

(** The stub runtime with the one-to-one encoder. *)
Definition canonical_runtime : Runtime :=
  with_json_dumps stub_runtime canonical_json_dumps.

(** The stub runtime on a disk that refuses the write made one microsecond
    after [t2026]. *)
Definition full_disk_runtime : Runtime :=
  with_file_append_ok stub_runtime
    (fun now => bool_decide (now <> 1767225600000001)).

(** ** Sample objects *)

(** 2026-01-01 00:00:00 UTC, in microseconds since the epoch. *)
Definition t2026 : Z := 1767225600000000.

Definition sample_content : gmap string Json :=
  list_to_map [("template_id", JStr "test");
               ("text", JObj (list_to_map [("en", JStr "Hello")]))].

(** A signer and the verifier of a device holding its public key. *)
Definition sample_signer (R : Runtime) : MessageSigner.t :=
  MessageSigner.init None "generated-key".

Definition sample_verifier (R : Runtime) (device : string) : MessageVerifier.t :=
  MessageVerifier.init (MessageSigner.public_key (sample_signer R)) device.

(** [create_signed_message] at [t2026]. *)
Definition sample_message (R : Runtime) (device tier : string) (ttl_seconds : Z)
    (nonce : string) : SignedMessage.t :=
  MessageSigner.create_signed_message (sample_signer R) device tier
    sample_content ttl_seconds None t2026 "msg-1" nonce.

(** The 10000 nonces "1" to "10000", and a verifier that has seen them. *)
Definition many_nonces : list string := pretty <$> seq 1 10000.

Definition full_verifier (R : Runtime) (device : string) : MessageVerifier.t :=
  MessageVerifier.set_seen (sample_verifier R device) (list_to_set many_nonces).

(** The [log] calls of the SDK's hash-chain test, all at [t2026]. *)
Definition sample_log_calls
  : list (AuditEventType * gmap string Json * option Z * Z) :=
  [(SYSTEM_BOOT, {["version" := JStr "1.0"]}, None, t2026);
   (MESSAGE_DISPLAYED, {["message_id" := JStr "msg-1"]}, None, t2026);
   (MESSAGE_DISPLAYED, {["message_id" := JStr "msg-2"]}, None, t2026)].

(** The log file they leave, starting without a file. *)
Definition sample_log_file (R : Runtime) : LogFile :=
  (AuditLogger.log_all sample_log_calls (AuditLogger.fresh "test") None).2.

(** The records on the lines of a file. *)
Definition entries (lines : list LogLine) : list AuditEvent.t :=
  omap (fun l => match l with Entry e => Some e | _ => None end) lines.

(** The edit of the SDK's tamper test: the version in the first record's
    data is overwritten. *)
Definition hack_version (e : AuditEvent.t) : AuditEvent.t :=
  AuditEvent.with_data e (<["version" := JStr "HACKED"]> (AuditEvent.data e)).

(** An engine over a spy backend that accepts every render, with the
    sample verifier, a fresh audit logger without a file and the default
    tier validator. *)
Definition sample_engine (R : Runtime)
  : SecureDisplayEngine.t (list (gmap string Json)) :=
  SecureDisplayEngine.init "test" [] (sample_verifier R "test")
    (AuditLogger.fresh "test") None None.

(** A signed message of the sample signer for the engine's device with an
    allow-listed template. *)
Definition crowd_message (R : Runtime) : SignedMessage.t :=
  MessageSigner.create_signed_message (sample_signer R) "test" "informational"
    {["template_id" := JStr "crowd-count"]} 300 None t2026 "msg-1" "n1".

(** A spy backend that accepts every render. *)
Definition accepting_spy : SecureDisplayBackend (list (gmap string Json)) :=
  spy_backend (fun _ => RenderReturned true).

(* ================================================================== *)
(** * Assumptions on the libraries *)
(* ================================================================== *)

(** The expiry string the signer writes for the instant [e] reads back, in
    [is_expired], as that instant. *)
Definition iso_roundtrip `{Runtime} (e : Z) : Prop :=
  fromisoformat (replace "Z" "+00:00" (MessageSigner.isoformat_z e)) = IsoAware e.

(** No two byte strings have the same SHA-256 digest. *)
Definition sha256_collision_free `{Runtime} : Prop :=
  forall p q : string, sha256_hexdigest p = sha256_hexdigest q -> p = q.

(** An Ed25519 signature verifies for the payload it was made for only. *)
Definition ed25519_binding `{Runtime} : Prop :=
  forall key p q : string,
    ed25519_verify (ed25519_public_bytes key) (ed25519_sign key p) q = true ->
    p = q.

(** A JSON text reads back as one value: values with the same text are the
    same once reloaded. *)
Definition json_dumps_faithful `{Runtime} : Prop :=
  forall v w : Json, json_dumps v = json_dumps w -> json_reload v = json_reload w.

(** The signature scheme in use accepts a signature for one payload only. *)
Definition signature_binding `{Runtime} : Prop :=
  if CRYPTO_AVAILABLE then ed25519_binding else sha256_collision_free.

(* ================================================================== *)
(** * The hash chain *)
(* ================================================================== *)

(** The chain invariant with its running hash: every record links to the
    hash before it and carries the hash of its own canonical encoding. *)
Fixpoint chained `{Runtime} (h : string) (es : list AuditEvent.t) : Prop :=
  match es with
  | [] => True
  | e :: rest =>
      AuditEvent.previous_hash e = h
      /\ AuditEvent.entry_hash e = Some (AuditEvent.compute_hash e)
      /\ chained (AuditEvent.compute_hash e) rest
  end.

(** The hash a chain that starts at [h] ends with. *)
Fixpoint tip `{Runtime} (h : string) (es : list AuditEvent.t) : string :=
  match es with
  | [] => h
  | e :: rest => tip (AuditEvent.compute_hash e) rest
  end.

(** The state of a logger and its file after a run of [log] calls on a
    fresh chain: the file holds the records [es]. *)
Definition logged `{Runtime} (self : AuditLogger.t) (file : LogFile) (es : list AuditEvent.t) : Prop :=
  default [] file = Entry <$> es
  /\ chained AuditLogger.GENESIS_HASH es
  /\ AuditLogger._last_hash self = tip AuditLogger.GENESIS_HASH es
  /\ AuditLogger._sequence self = Z.of_nat (length es)
  /\ (forall i e, es !! i = Some e -> AuditEvent.sequence e = Z.of_nat i + 1).

(** A [log] call whose record reaches the file as it was logged: its data
    are plain JSON, which reads back as it was written, and the write made
    at its instant goes through. *)
Definition kept `{Runtime}
    (call : AuditEventType * gmap string Json * option Z * Z) : Prop :=
  json_reload <$> call.1.1.2 = call.1.1.2 /\ file_append_ok call.2 = true.

(** Every record links to the running hash of the loader, whatever its own
    [entry_hash] is worth. *)
Fixpoint links_ok `{Runtime} (h : string) (es : list AuditEvent.t) : Prop :=
  match es with
  | [] => True
  | e :: rest =>
      AuditEvent.previous_hash e = h
      /\ links_ok (str_or (AuditEvent.entry_hash e) (AuditEvent.compute_hash e)) rest
  end.

(** The logger [_load_existing] ends with on such a file. *)
Fixpoint loaded `{Runtime} (self : AuditLogger.t) (es : list AuditEvent.t) : AuditLogger.t :=
  match es with
  | [] => self
  | e :: rest =>
      loaded {| AuditLogger.device_id := AuditLogger.device_id self;
                AuditLogger._sequence := AuditEvent.sequence e;
                AuditLogger._last_hash := str_or (AuditEvent.entry_hash e)
                                (AuditEvent.compute_hash e) |} rest
  end.

(* ================================================================== *)
(** * The gates of [display] *)
(* ================================================================== *)

Section gates.
Context `{Runtime} {B : Type}.




End gates.

(* ================================================================== *)
(** * Verification: tiers.py *)
(* ================================================================== *)

(** A list has as many elements as the set of its elements exactly when no
    element repeats: the test [len(ids) != len(set(ids))]. *)
Lemma size_list_to_set_le (l : list (option string)) :
  (size (list_to_set l : gset (option string)) <= length l)%nat.
Proof.
  induction l as [|x l IH]; cbn.
  - by rewrite size_empty.
  - rewrite size_union_alt, size_singleton.
    assert (Hle : (size (list_to_set l ∖ {[x]} : gset (option string))
                   <= size (list_to_set l : gset (option string)))%nat).
    { apply subseteq_size. intros y Hy. by apply elem_of_difference in Hy as [? _]. }
    lia.
Qed.

Lemma length_eq_size_NoDup (l : list (option string)) :
  length l = size (list_to_set l : gset (option string)) <-> NoDup l.
Proof.
  split; [|intros Hnd; by rewrite size_list_to_set].
  induction l as [|x l IH]; cbn; [constructor|].
  intros Hlen. destruct (decide (x ∈ l)) as [Hin|Hnin].
  - exfalso.
    assert (({[x]} ∪ list_to_set l : gset (option string)) = list_to_set l)
      as Heq by (apply subseteq_union_1_L; set_solver).
    rewrite Heq in Hlen. pose proof (size_list_to_set_le l). lia.
  - constructor; [done|]. apply IH.
    rewrite size_union in Hlen by set_solver.
    rewrite size_singleton in Hlen. lia.
Qed.

Lemma shared_operator_not_NoDup (ids : list (option string)) i j :
  i <> j -> is_Some (ids !! i) -> ids !! i = ids !! j -> ~ NoDup ids.
Proof.
  intros Hij [x Hi] Heq Hnd. rewrite Hi in Heq.
  apply Hij. eapply NoDup_lookup; eauto.
Qed.

Section tier_facts.
Context `{Runtime}.

Lemma requires_human_spec t :
  requires_human t = true <-> t = WARNING \/ t = EMERGENCY.
Proof. destruct t; vm_compute; split; intros; intuition congruence. Qed.

(** [validate] on a tier that requires human authorization, step by step. *)
Lemma validate_human_too_few self tier template_id auths :
  requires_human tier = true ->
  (length auths < min_authorizations tier)%nat ->
  (validate self tier template_id auths).1 = false.
Proof.
  intros Hh Hlen. unfold validate. rewrite Hh. cbn.
  by rewrite bool_decide_eq_true_2.
Qed.

Lemma validate_multiparty_duplicate self tier template_id auths :
  requires_human tier = true -> requires_multiparty tier = true ->
  ~ NoDup ((fun a : AuthDict => a !! "operator_id") <$> auths) ->
  (validate self tier template_id auths).1 = false.
Proof.
  intros Hh Hm Hdup. unfold validate. rewrite Hh, Hm. cbn.
  case_bool_decide; [done|].
  destruct (match allowed_operators self with
            | Some allowed => _ | None => None end); [done|].
  rewrite bool_decide_eq_false_2; [done|].
  by rewrite length_eq_size_NoDup.
Qed.

End tier_facts.

(** C7. For the emergency tier, [TierValidator.validate] rejects every
    authorization list in which two authorizations share an operator_id,
    rejects every list with fewer than two authorizations, and accepts a
    list of two authorizations by distinct operators that the validator's
    allow-list (when one is configured) contains.  Without an allow-list the
    reason given for a shared operator is the "different operators" one. *)
Theorem C7_emergency_validation `{Runtime} (self : TierValidator)
    (template_id : Json) :
  (forall (auths : list AuthDict) (i j : nat) (a b : AuthDict),
      i <> j -> auths !! i = Some a -> auths !! j = Some b ->
      a !! "operator_id" = b !! "operator_id" ->
      (validate self EMERGENCY template_id auths).1 = false)
  /\ (forall (auths : list AuthDict) (i j : nat) (a b : AuthDict),
      allowed_operators self = None ->
      i <> j -> auths !! i = Some a -> auths !! j = Some b ->
      a !! "operator_id" = b !! "operator_id" ->
      validate self EMERGENCY template_id auths
      = (false, Some "Multi-party authorization requires different operators"))
  /\ (forall auths : list AuthDict,
      (length auths < 2)%nat ->
      (validate self EMERGENCY template_id auths).1 = false)
  /\ (forall (a b : AuthDict) (op1 op2 : string),
      a !! "operator_id" = Some op1 -> b !! "operator_id" = Some op2 ->
      op1 <> op2 ->
      (forall allowed, allowed_operators self = Some allowed ->
                       op1 ∈ allowed /\ op2 ∈ allowed) ->
      validate self EMERGENCY template_id [a; b] = (true, None)).
Proof.
  assert (Hdup : forall (auths : list AuthDict) i j a b,
             i <> j -> auths !! i = Some a -> auths !! j = Some b ->
             a !! "operator_id" = b !! "operator_id" ->
             ~ NoDup ((fun a : AuthDict => a !! "operator_id") <$> auths)).
  { intros auths i j a b Hij Hi Hj Hop.
    apply (shared_operator_not_NoDup _ i j Hij).
    - rewrite list_lookup_fmap, Hi. by eexists.
    - by rewrite !list_lookup_fmap, Hi, Hj; cbn; f_equal. }
  repeat split.
  - intros auths i j a b Hij Hi Hj Hop.
    apply validate_multiparty_duplicate; [done..|]. eauto.
  - intros auths i j a b Hnone Hij Hi Hj Hop.
    assert (2 <= length auths)%nat as Hlen.
    { apply lookup_lt_Some in Hi, Hj. lia. }
    unfold validate. rewrite Hnone.
    change (requires_human EMERGENCY) with true.
    change (requires_multiparty EMERGENCY) with true.
    change (min_authorizations EMERGENCY) with 2%nat. cbn.
    rewrite bool_decide_eq_false_2 by lia.
    rewrite bool_decide_eq_false_2; [done|].
    rewrite length_eq_size_NoDup. eauto.
  - intros auths Hlen. by apply validate_human_too_few.
  - intros a b op1 op2 Ha Hb Hne Hallowed.
    assert (Hops : (fun a : AuthDict => a !! "operator_id") <$> [a; b]
                   = [Some op1; Some op2]) by (cbn; by rewrite Ha, Hb).
    unfold validate. rewrite Hops.
    assert (Hfirst :
      match allowed_operators self with
      | Some allowed =>
          if decide (allowed = ∅) then None
          else first_unauthorized allowed [a; b]
      | None => None
      end = None).
    { destruct (allowed_operators self) as [allowed|] eqn:Hal; [|done].
      destruct (Hallowed allowed eq_refl) as [H1 H2].
      case_decide; [done|]. unfold first_unauthorized. rewrite Hops. cbn.
      rewrite !bool_decide_eq_false_2; [done|by intros ?..]. }
    rewrite Hfirst.
    change (requires_human EMERGENCY) with true.
    change (requires_multiparty EMERGENCY) with true.
    change (min_authorizations EMERGENCY) with 2%nat.
    rewrite bool_decide_eq_false_2 by (cbn; lia).
    rewrite bool_decide_eq_true_2; [done|].
    symmetry. apply (size_list_to_set (C := gset (option string))).
    repeat constructor; set_solver.
Qed.

(** C7: the lists of the specification's example, with the default
    validator: [op1, op1] and [op1] are rejected, [op1, op2] is accepted. *)
Lemma C7_emergency_validation_witness :
  let auth op : AuthDict :=
    list_to_map [("operator_id", op); ("method", "dashboard");
                 ("timestamp", "2024-01-01")] in
  let validator := TierValidator_init None in
  validate (H := stub_runtime) validator EMERGENCY (JStr "fire-evacuation")
    [auth "op-1"; auth "op-1"]
  = (false, Some "Multi-party authorization requires different operators")
  /\ (validate (H := stub_runtime) validator EMERGENCY (JStr "fire-evacuation")
        [auth "op-1"]).1 = false
  /\ validate (H := stub_runtime) validator EMERGENCY (JStr "fire-evacuation")
       [auth "op-1"; auth "op-2"] = (true, None).
Proof.
  intros auth validator.
  destruct (C7_emergency_validation (H := stub_runtime) validator
              (JStr "fire-evacuation")) as (_ & Hdup & Hfew & Hok).
  split; [|split].
  - apply (Hdup _ 0%nat 1%nat (auth "op-1") (auth "op-1")); done.
  - apply Hfew. cbn. lia.
  - apply (Hok _ _ "op-1" "op-2"); done.
Defined.

(** C8. [get_tier_for_detection]: fire, active_shooter and explosion give
    emergency from confidence 0.9, warning from 0.7, advisory below; smoke,
    fight and medical_emergency give warning from 0.85, advisory below;
    crowd, congestion and weather give informational; every other type
    gives advisory. *)
Theorem C8_get_tier_for_detection (detection_type : string) (confidence : float) :
  let tier := get_tier_for_detection detection_type confidence in
  (detection_type ∈ ["fire"; "active_shooter"; "explosion"] ->
     (float_ge confidence 0.9 = true -> tier = EMERGENCY)
     /\ (float_ge confidence 0.9 = false -> float_ge confidence 0.7 = true ->
         tier = WARNING)
     /\ (float_ge confidence 0.7 = false -> float_ge confidence 0.9 = false ->
         tier = ADVISORY))
  /\ (detection_type ∈ ["smoke"; "fight"; "medical_emergency"] ->
     (float_ge confidence 0.85 = true -> tier = WARNING)
     /\ (float_ge confidence 0.85 = false -> tier = ADVISORY))
  /\ (detection_type ∈ ["crowd"; "congestion"; "weather"] ->
     tier = INFORMATIONAL)
  /\ (detection_type ∉ ["fire"; "active_shooter"; "explosion";
                        "smoke"; "fight"; "medical_emergency";
                        "crowd"; "congestion"; "weather"] ->
     tier = ADVISORY).
Proof.
  cbv zeta. unfold get_tier_for_detection.
  split; [|split; [|split]].
  - intros Hin. rewrite bool_decide_eq_true_2 by done.
    repeat split.
    + by intros ->.
    + by intros -> ->.
    + by intros -> ->.
  - intros Hin. rewrite bool_decide_eq_false_2 by set_solver.
    rewrite bool_decide_eq_true_2 by done.
    split; by intros ->.
  - intros Hin. rewrite !bool_decide_eq_false_2 by set_solver.
    by rewrite bool_decide_eq_true_2.
  - intros Hnin. rewrite !bool_decide_eq_false_2; [done|set_solver..].
Qed.

(** C8: the four classifications the specification lists, and a type the
    function does not know. *)
Lemma C8_get_tier_for_detection_witness :
  get_tier_for_detection "fire" 0.95 = EMERGENCY
  /\ get_tier_for_detection "fire" 0.75 = WARNING
  /\ get_tier_for_detection "smoke" 0.9 = WARNING
  /\ get_tier_for_detection "crowd" 0.99 = INFORMATIONAL
  /\ get_tier_for_detection "flood" 0.99 = ADVISORY.
Proof.
  pose proof (C8_get_tier_for_detection "fire" 0.95) as (Hfire & _).
  pose proof (C8_get_tier_for_detection "fire" 0.75) as (Hfire' & _).
  pose proof (C8_get_tier_for_detection "smoke" 0.9) as (_ & Hsmoke & _).
  pose proof (C8_get_tier_for_detection "crowd" 0.99) as (_ & _ & Hcrowd & _).
  pose proof (C8_get_tier_for_detection "flood" 0.99) as (_ & _ & _ & Hother).
  split; [|split; [|split; [|split]]].
  - apply Hfire; [set_solver|reflexivity].
  - apply Hfire'; [set_solver|reflexivity..].
  - apply Hsmoke; [set_solver|reflexivity].
  - apply Hcrowd. set_solver.
  - apply Hother. set_solver.
Defined.

(** C10. For the ipaws tier [TierValidator.validate] is invalid whatever
    the template and the authorizations: the tier does not require human
    authorization and has no entry in [AUTONOMOUS_TEMPLATES]. *)
Theorem C10_ipaws_never_valid `{Runtime} (self : TierValidator)
    (template_id : Json) (authorizations : list AuthDict) :
  requires_human IPAWS = false
  /\ dict_get AUTONOMOUS_TEMPLATES IPAWS [] = []
  /\ is_template_autonomous IPAWS template_id = false
  /\ validate self IPAWS template_id authorizations
     = (false, Some ("Template '" ++ py_str template_id
                       ++ "' not approved for autonomous ipaws")).
Proof.
  assert (Hauto : is_template_autonomous IPAWS template_id = false).
  { unfold is_template_autonomous. by destruct template_id. }
  repeat split; try done.
  unfold validate. cbn. by rewrite Hauto.
Qed.

(* ================================================================== *)
(** * Verification: signing.py *)
(* ================================================================== *)

Section signing_facts.
Context `{Runtime}.
Import MessageVerifier.

Lemma check_signature_state self m v :
  (check_signature self m v).2 = v.
Proof.
  unfold check_signature, when.
  repeat (case_match; try done).
Qed.

(** [verify], check by check: the first failing check decides, and only a
    full pass records the nonce. *)
Lemma verify_unfold m now v :
  verify m now v =
  if device_mismatch v m then
    (inl (ValueError ("Message for device " ++ SignedMessage.device_id m
                        ++ ", not " ++ device_id v)), v)
  else match SignedMessage.is_expired m now with
       | inl e => (inl e, v)
       | inr true =>
           (inl (MessageExpiredError
                   ("Message " ++ SignedMessage.message_id m
                      ++ " expired at " ++ SignedMessage.expires m)), v)
       | inr false =>
           if bool_decide (SignedMessage.nonce m ∈ _seen_nonces v) then
             (inl (ReplayDetectedError
                     ("Nonce " ++ SignedMessage.nonce m
                        ++ " already seen - replay attack?")), v)
           else match (check_signature v m v).1 with
                | inl e => (inl e, v)
                | inr _ => (inr true, (record_nonce (SignedMessage.nonce m) v).2)
                end
       end.
Proof.
  unfold verify.
  unfold mbind, M_bind, get_self, when, lift_exn, raise, mret, M_ret.
  pose proof (check_signature_state v m v) as Hst.
  destruct (device_mismatch v m); [done|].
  destruct (SignedMessage.is_expired m now) as [e|[]]; [done..|].
  destruct (bool_decide _); [done|].
  destruct (check_signature v m v) as [[e|[]] v']; cbn in *; subst; [done|].
  unfold record_nonce.
  unfold mbind, M_bind, get_self, when, lift_exn, raise, mret, M_ret, modify_self.
  by destruct (bool_decide _).
Qed.

Lemma record_nonce_unfold nonce v :
  record_nonce nonce v = (inr tt, set_seen v (recorded nonce v)).
Proof.
  unfold record_nonce, recorded.
  unfold mbind, M_bind, get_self, when, lift_exn, raise, mret, M_ret, modify_self.
  cbn. by destruct (bool_decide _).
Qed.

(** Discarding the first [k] enumerated elements removes [k] of them, or
    all when the set is smaller. *)
Lemma size_evict (s : gset string) (k : nat) :
  size (s ∖ list_to_set (take k (set_iter s)))
  = (size s - Nat.min k (size s))%nat.
Proof.
  pose proof (set_iter_perm s) as Hperm.
  assert (Hnd : NoDup (take k (set_iter s))).
  { eapply sublist_NoDup; [|apply sublist_take].
    rewrite Hperm. apply NoDup_elements. }
  assert (Hsub : (list_to_set (take k (set_iter s)) : gset string) ⊆ s).
  { intros x Hx. apply elem_of_list_to_set in Hx.
    apply elem_of_take in Hx as (i & Hx & _).
    apply elem_of_elements. rewrite <- Hperm. by eapply list_elem_of_lookup_2. }
  rewrite size_difference by done.
  rewrite size_list_to_set by done.
  rewrite length_take. unfold size at 3, set_size. cbn.
  by rewrite Hperm.
Qed.

Lemma recorded_size_le nonce v :
  (2 <= _max_nonces v)%nat ->
  (size (_seen_nonces v) <= _max_nonces v)%nat ->
  (size (recorded nonce v) <= _max_nonces v)%nat.
Proof.
  intros Hmax Hsize. unfold recorded.
  assert (Hadd : (size ({[nonce]} ∪ _seen_nonces v) <= S (size (_seen_nonces v)))%nat).
  { rewrite size_union_alt, size_singleton.
    assert (size (_seen_nonces v ∖ {[nonce]}) <= size (_seen_nonces v))%nat.
    { apply subseteq_size. intros y Hy. by apply elem_of_difference in Hy as [? _]. }
    lia. }
  case_bool_decide as Hover; [|lia].
  rewrite size_evict.
  assert (1 <= _max_nonces v / 2)%nat.
  { change 1%nat with (2 / 2)%nat. by apply Nat.Div0.div_le_mono. }
  lia.
Qed.

Lemma payload_with_signature (m : SignedMessage.t) sig :
  SignedMessage.payload_for_signing (SignedMessage.with_signature m sig)
  = SignedMessage.payload_for_signing m.
Proof. reflexivity. Qed.

Lemma startswith_DEV (h : string) : startswith ("DEV:" ++ h) "DEV:" = true.
Proof. unfold startswith. cbn. by destruct h. Qed.

(** The signature the signer computes passes the verifier's check. *)
Lemma check_signature_signed private_key generated v m :
  let signer := MessageSigner.init private_key generated in
  paired signer v ->
  SignedMessage.signature m
  = Some (MessageSigner.signature_for signer (SignedMessage.payload_for_signing m)) ->
  check_signature v m v = (inr tt, v).
Proof.
  intros signer Hpair Hsig. unfold check_signature. rewrite Hsig, Hpair.
  unfold signer, MessageSigner.init, MessageSigner.signature_for, init,
    MessageSigner.public_key.
  destruct CRYPTO_AVAILABLE eqn:Hc;
    cbn [negb _public_key MessageSigner._private_key
         MessageSigner._public_key_bytes].
  - by rewrite bytes_fromhex_hex, ed25519_correct.
  - rewrite startswith_DEV. unfold when.
    by rewrite bool_decide_eq_false_2 by (by intros ?).
Qed.

(** Under [signature_binding], the signature of one payload fails the
    check against a message with another payload. *)
Lemma check_signature_other_payload private_key generated v m' payload :
  let signer := MessageSigner.init private_key generated in
  signature_binding ->
  paired signer v ->
  SignedMessage.signature m' = Some (MessageSigner.signature_for signer payload) ->
  SignedMessage.payload_for_signing m' <> payload ->
  exists msg, check_signature v m' v = (inl (SignatureError msg), v).
Proof.
  intros signer Hbind Hpair Hsig Hne. unfold check_signature.
  rewrite Hsig, Hpair.
  unfold signer, MessageSigner.init, MessageSigner.signature_for, init,
    MessageSigner.public_key.
  unfold signature_binding in Hbind.
  destruct CRYPTO_AVAILABLE eqn:Hc;
    cbn [negb _public_key MessageSigner._private_key
         MessageSigner._public_key_bytes].
  - rewrite bytes_fromhex_hex.
    destruct (ed25519_verify _ _ _) eqn:Hv; [|by eexists].
    apply Hbind in Hv. congruence.
  - rewrite startswith_DEV. unfold when.
    rewrite bool_decide_eq_true_2; [by eexists|].
    intros Heq. apply Hne. symmetry. apply Hbind.
    by simplify_eq.
Qed.

(** [is_expired] on a message whose expiry string the signer wrote. *)
Lemma is_expired_created (m : SignedMessage.t) (e now : Z) :
  iso_roundtrip e ->
  SignedMessage.expires m = MessageSigner.isoformat_z e ->
  SignedMessage.is_expired m now = inr (bool_decide (e < now)).
Proof.
  intros Hrt He. unfold SignedMessage.is_expired. rewrite He.
  unfold iso_roundtrip in Hrt. by rewrite Hrt.
Qed.

End signing_facts.

Section signing_claims.
Context `{Runtime}.
Import MessageVerifier.

Lemma verify_raise_keeps_state m now v e :
  (verify m now v).1 = inl e -> (verify m now v).2 = v.
Proof.
  rewrite verify_unfold.
  repeat (case_match; try done).
Qed.

Lemma verify_max_nonces m now v :
  _max_nonces (verify m now v).2 = _max_nonces v.
Proof.
  rewrite verify_unfold, record_nonce_unfold.
  repeat (case_match; try done).
Qed.

Lemma verify_seen_size m now v :
  (2 <= _max_nonces v)%nat ->
  (size (_seen_nonces v) <= _max_nonces v)%nat ->
  (size (_seen_nonces (verify m now v).2) <= _max_nonces v)%nat.
Proof.
  intros Hmax Hsize. rewrite verify_unfold, record_nonce_unfold.
  repeat (case_match; try done). cbn. by apply recorded_size_le.
Qed.

Lemma verify_all_bounded calls v :
  (2 <= _max_nonces v)%nat ->
  (size (_seen_nonces v) <= _max_nonces v)%nat ->
  _max_nonces (verify_all calls v) = _max_nonces v
  /\ (size (_seen_nonces (verify_all calls v)) <= _max_nonces v)%nat.
Proof.
  revert v. induction calls as [|[m now] calls IH]; intros v Hmax Hsize; [done|].
  cbn. pose proof (verify_max_nonces m now v) as Hkeep.
  destruct (IH (verify m now v).2) as [IH1 IH2].
  - by rewrite Hkeep.
  - rewrite Hkeep. by apply verify_seen_size.
  - rewrite IH1, Hkeep in *. done.
Qed.

(** A successful [verify] leaves the verifier with the nonce recorded. *)
Lemma verify_ok m now v :
  device_mismatch v m = false ->
  SignedMessage.is_expired m now = inr false ->
  SignedMessage.nonce m ∉ _seen_nonces v ->
  check_signature v m v = (inr tt, v) ->
  verify m now v = (inr true, set_seen v (recorded (SignedMessage.nonce m) v)).
Proof.
  intros Hdev Hexp Hnonce Hsig.
  rewrite verify_unfold, Hdev, Hexp, Hsig, record_nonce_unfold.
  by rewrite bool_decide_eq_false_2.
Qed.

Lemma verify_replay m now v :
  device_mismatch v m = false ->
  SignedMessage.is_expired m now = inr false ->
  SignedMessage.nonce m ∈ _seen_nonces v ->
  verify m now v
  = (inl (ReplayDetectedError
            ("Nonce " ++ SignedMessage.nonce m ++ " already seen - replay attack?")),
     v).
Proof.
  intros Hdev Hexp Hnonce.
  rewrite verify_unfold, Hdev, Hexp. by rewrite bool_decide_eq_true_2.
Qed.

(** Below the capacity the recorded nonce stays in the set. *)
Lemma recorded_below_capacity nonce v :
  (size (_seen_nonces v) < _max_nonces v)%nat ->
  recorded nonce v = {[nonce]} ∪ _seen_nonces v.
Proof.
  intros Hlt. unfold recorded. rewrite bool_decide_eq_false_2; [done|].
  rewrite size_union_alt, size_singleton.
  assert (size (_seen_nonces v ∖ {[nonce]}) <= size (_seen_nonces v))%nat.
  { apply subseteq_size. intros y Hy. by apply elem_of_difference in Hy as [? _]. }
  lia.
Qed.

(** C2 (as amended). [verify] checks device binding, expiration, replay and
    signature in this order and raises the error of the first check that
    fails: a message for another device (and not for "*") fails with the
    device ValueError whatever its expiry, nonce and signature; a message
    for this device that has expired fails [MessageExpiredError] whatever
    its nonce and signature; one that has not expired but carries a seen
    nonce fails [ReplayDetectedError] whatever its signature.  A message
    created with [ttl_seconds <= 0] fails [MessageExpiredError] when the
    verifier reads the clock after the creation instant, and one created
    with [ttl_seconds < 0] also when it reads the same instant; at the
    creation instant itself a message with [ttl_seconds = 0] has not
    expired, because the test is [now > expires]. *)
Theorem C2_verify_check_order (v : t) (m : SignedMessage.t) (now : Z) :
  (device_mismatch v m = true ->
     verify m now v
     = (inl (ValueError ("Message for device " ++ SignedMessage.device_id m
                           ++ ", not " ++ device_id v)), v))
  /\ (device_mismatch v m = false ->
      SignedMessage.is_expired m now = inr true ->
      verify m now v
      = (inl (MessageExpiredError
                ("Message " ++ SignedMessage.message_id m
                   ++ " expired at " ++ SignedMessage.expires m)), v))
  /\ (device_mismatch v m = false ->
      SignedMessage.is_expired m now = inr false ->
      SignedMessage.nonce m ∈ _seen_nonces v ->
      verify m now v
      = (inl (ReplayDetectedError
                ("Nonce " ++ SignedMessage.nonce m
                   ++ " already seen - replay attack?")), v))
  /\ (device_mismatch v m = false ->
      SignedMessage.is_expired m now = inr false ->
      SignedMessage.nonce m ∉ _seen_nonces v ->
      forall e, (check_signature v m v).1 = inl e ->
      verify m now v = (inl e, v))
  /\ (forall signer device tier content ttl_seconds authorizations created
             message_id nonce,
      m = MessageSigner.create_signed_message signer device tier content
            ttl_seconds authorizations created message_id nonce ->
      device_mismatch v m = false ->
      iso_roundtrip (created + ttl_seconds * 1000000) ->
      (ttl_seconds <= 0 /\ created < now) \/ (ttl_seconds < 0 /\ created <= now) ->
      verify m now v
      = (inl (MessageExpiredError
                ("Message " ++ message_id ++ " expired at "
                   ++ MessageSigner.isoformat_z (created + ttl_seconds * 1000000))),
         v)).
Proof.
  split; [|split; [|split; [|split]]].
  - intros Hdev. by rewrite verify_unfold, Hdev.
  - intros Hdev Hexp. by rewrite verify_unfold, Hdev, Hexp.
  - apply verify_replay.
  - intros Hdev Hexp Hnonce e Hsig.
    rewrite verify_unfold, Hdev, Hexp, Hsig.
    by rewrite bool_decide_eq_false_2.
  - intros signer device tier content ttl auths created mid nonce -> Hdev Hrt Httl.
    rewrite verify_unfold, Hdev.
    erewrite is_expired_created; [|exact Hrt|reflexivity].
    rewrite bool_decide_eq_true_2 by lia. done.
Qed.

(** Sign, then verify.  A message signed by [MessageSigner], presented to
    a verifier for its device that holds the signer's public key, not
    expired and with a nonce the verifier has not seen, passes [verify],
    which records the nonce.  While fewer nonces than the capacity are held
    the nonce is then in the seen-set; and on a verifier whose seen-set
    holds the nonce, every [verify] of a message with that nonce which
    passes the device and expiry checks fails [ReplayDetectedError]. *)
Theorem sign_verify_once (private_key : option string) (generated : string)
    (v : t) (m0 : SignedMessage.t) (now : Z) :
  let signer := MessageSigner.init private_key generated in
  let m := MessageSigner.sign signer m0 in
  paired signer v ->
  device_mismatch v m = false ->
  SignedMessage.is_expired m now = inr false ->
  SignedMessage.nonce m ∉ _seen_nonces v ->
  verify m now v
  = (inr true, set_seen v (recorded (SignedMessage.nonce m) v))
  /\ ((size (_seen_nonces v) < _max_nonces v)%nat ->
      SignedMessage.nonce m ∈ recorded (SignedMessage.nonce m) v)
  /\ (forall v' m2 now2,
      SignedMessage.nonce m ∈ _seen_nonces v' ->
      SignedMessage.nonce m2 = SignedMessage.nonce m ->
      device_mismatch v' m2 = false ->
      SignedMessage.is_expired m2 now2 = inr false ->
      verify m2 now2 v'
      = (inl (ReplayDetectedError
                ("Nonce " ++ SignedMessage.nonce m
                   ++ " already seen - replay attack?")), v')).
Proof.
  intros signer m Hpair Hdev Hexp Hnonce.
  split; [|split].
  - apply verify_ok; [done..|].
    by apply (check_signature_signed private_key generated).
  - intros Hlt. rewrite recorded_below_capacity by done. set_solver.
  - intros v' m2 now2 Hin Heq Hdev2 Hexp2.
    rewrite <- Heq in *. by apply verify_replay.
Qed.

(** C4. [verify] records the nonce only when every check passes: a call
    that raises leaves the verifier, and so its seen-set, as it was.  The
    capacity is constant, and the seen-set of a verifier that [init] built
    never holds more than its capacity of 10000 nonces after any run of
    [verify] calls: a successful call adds the nonce and, when that exceeds
    the capacity, discards [capacity // 2] of the elements. *)
Theorem C4_nonce_recording (m : SignedMessage.t) (now : Z) (v : t) :
  (forall e, (verify m now v).1 = inl e -> (verify m now v).2 = v)
  /\ ((verify m now v).1 = inr true ->
      _seen_nonces (verify m now v).2 = recorded (SignedMessage.nonce m) v
      /\ ((size ({[SignedMessage.nonce m]} ∪ _seen_nonces v) <= _max_nonces v)%nat ->
          recorded (SignedMessage.nonce m) v
          = {[SignedMessage.nonce m]} ∪ _seen_nonces v)
      /\ ((_max_nonces v < size ({[SignedMessage.nonce m]} ∪ _seen_nonces v))%nat ->
          size (recorded (SignedMessage.nonce m) v)
          = (size ({[SignedMessage.nonce m]} ∪ _seen_nonces v)
             - Nat.min (_max_nonces v / 2)
                 (size ({[SignedMessage.nonce m]} ∪ _seen_nonces v)))%nat))
  /\ _max_nonces (verify m now v).2 = _max_nonces v
  /\ ((2 <= _max_nonces v)%nat ->
      (size (_seen_nonces v) <= _max_nonces v)%nat ->
      (size (_seen_nonces (verify m now v).2) <= _max_nonces v)%nat)
  /\ (forall public_key device calls,
      _max_nonces (init public_key device) = 10000%nat
      /\ (size (_seen_nonces (verify_all calls (init public_key device)))
          <= 10000)%nat).
Proof.
  split; [|split; [|split; [|split]]].
  - intros e. apply verify_raise_keeps_state.
  - intros Hok. split; [|split].
    + revert Hok. rewrite verify_unfold, record_nonce_unfold.
      repeat (case_match; try done).
    + intros Hle. unfold recorded. by rewrite bool_decide_eq_false_2 by lia.
    + intros Hgt. unfold recorded. rewrite bool_decide_eq_true_2 by done.
      apply size_evict.
  - apply verify_max_nonces.
  - apply verify_seen_size.
  - intros public_key device calls. split; [done|].
    assert (Hmax : (2 <= _max_nonces (init public_key device))%nat).
    { cbn. apply Nat.leb_le. by vm_compute. }
    assert (Hsize : (size (_seen_nonces (init public_key device))
                     <= _max_nonces (init public_key device))%nat).
    { cbn. rewrite size_empty. lia. }
    by destruct (verify_all_bounded calls _ Hmax Hsize).
Qed.

(** C5 (as amended). Changing a signed message so that its canonical
    payload changes never passes [verify] on a verifier that holds the
    signer's key, provided the signature scheme accepts a signature for one
    payload only: the call raises and leaves the verifier unchanged.  It
    raises [SignatureError] when the changed message still passes the
    device, expiry and replay checks; otherwise it raises the error of the
    first of those checks that fails, not [SignatureError]. *)
Theorem C5_mutation_rejected (private_key : option string) (generated : string)
    (v : t) (m0 m' : SignedMessage.t) (now : Z) :
  let signer := MessageSigner.init private_key generated in
  let m := MessageSigner.sign signer m0 in
  signature_binding ->
  paired signer v ->
  SignedMessage.signature m' = SignedMessage.signature m ->
  SignedMessage.payload_for_signing m' <> SignedMessage.payload_for_signing m ->
  (exists e, verify m' now v = (inl e, v))
  /\ (device_mismatch v m' = false ->
      SignedMessage.is_expired m' now = inr false ->
      SignedMessage.nonce m' ∉ _seen_nonces v ->
      exists msg, verify m' now v = (inl (SignatureError msg), v)).
Proof.
  intros signer m Hbind Hpair Hsig Hne.
  destruct (check_signature_other_payload private_key generated v m'
              (SignedMessage.payload_for_signing m0) Hbind Hpair Hsig Hne)
    as [msg Hcheck].
  split.
  - rewrite verify_unfold, Hcheck.
    repeat (case_match; try done); by eexists.
  - intros Hdev Hexp Hnonce. exists msg.
    rewrite verify_unfold, Hdev, Hexp, Hcheck.
    by rewrite bool_decide_eq_false_2.
Qed.

Lemma sign_signature signer m0 :
  SignedMessage.signature (MessageSigner.sign signer m0)
  = Some (MessageSigner.signature_for signer
            (SignedMessage.payload_for_signing (MessageSigner.sign signer m0))).
Proof. reflexivity. Qed.

(** When the set enumerates the new nonce first and adding it exceeds the
    capacity, recording the nonce evicts it at once. *)
Lemma recorded_evicts_first nonce v rest :
  set_iter ({[nonce]} ∪ _seen_nonces v) = nonce :: rest ->
  (_max_nonces v < size ({[nonce]} ∪ _seen_nonces v))%nat ->
  (2 <= _max_nonces v)%nat ->
  nonce ∉ recorded nonce v.
Proof.
  intros Hiter Hover Hmax. unfold recorded.
  rewrite bool_decide_eq_true_2 by done. rewrite Hiter.
  destruct (_max_nonces v / 2)%nat as [|k] eqn:Hk.
  - apply Nat.div_small_iff in Hk; lia.
  - cbn. set_solver.
Qed.

(** A message that passes [verify] on a verifier holding exactly its
    capacity of nonces, whose set enumerates the new nonce first, passes
    [verify] again right after: the nonce was evicted by the very call that
    recorded it. *)
Lemma verify_twice_after_eviction private_key generated m0 now v rest :
  let signer := MessageSigner.init private_key generated in
  let m := MessageSigner.sign signer m0 in
  let v1 := set_seen v (recorded (SignedMessage.nonce m) v) in
  let v2 := set_seen v1 (recorded (SignedMessage.nonce m) v1) in
  paired signer v ->
  device_mismatch v m = false ->
  SignedMessage.is_expired m now = inr false ->
  SignedMessage.nonce m ∉ _seen_nonces v ->
  size (_seen_nonces v) = _max_nonces v ->
  (2 <= _max_nonces v)%nat ->
  set_iter ({[SignedMessage.nonce m]} ∪ _seen_nonces v)
  = SignedMessage.nonce m :: rest ->
  verify m now v = (inr true, v1) /\ verify m now v1 = (inr true, v2).
Proof.
  intros signer m v1 v2 Hpair Hdev Hexp Hfresh Hsize Hmax Hiter.
  split.
  - apply verify_ok; [done..|].
    by apply (check_signature_signed private_key generated).
  - apply verify_ok; [done..| |].
    + eapply recorded_evicts_first; [done| |done].
      rewrite size_union by set_solver. rewrite size_singleton. lia.
    + by apply (check_signature_signed private_key generated).
Qed.

End signing_claims.

(** ** Signing: concrete runs *)

(** C2: a message for device-B on the verifier of device-A meets the
    first hypothesis and raises the device ValueError; a message created
    with a ttl of -10 seconds and read at its creation instant meets those
    of the last part and raises [MessageExpiredError]. *)
Lemma C2_verify_check_order_witness :
  let v := sample_verifier stub_runtime "device-A" in
  let signer := sample_signer stub_runtime in
  let mB := sample_message stub_runtime "device-B" "informational" 300 "n1" in
  let mX := MessageSigner.create_signed_message (H := stub_runtime) signer
              "device-A" "informational" sample_content (-10) None t2026
              "msg-1" "n1" in
  (MessageVerifier.device_mismatch v mB = true
   /\ MessageVerifier.verify (H := stub_runtime) mB t2026 v
      = (inl (ValueError ("Message for device " ++ SignedMessage.device_id mB
                            ++ ", not " ++ MessageVerifier.device_id v)), v))
  /\ (MessageVerifier.device_mismatch v mX = false
      /\ iso_roundtrip (H := stub_runtime) (t2026 + -10 * 1000000)
      /\ (-10 < 0 /\ t2026 <= t2026)
      /\ MessageVerifier.verify (H := stub_runtime) mX t2026 v
         = (inl (MessageExpiredError
                   ("Message " ++ "msg-1" ++ " expired at "
                      ++ MessageSigner.isoformat_z (H := stub_runtime)
                           (t2026 + -10 * 1000000))), v)).
Proof.
  intros v signer mB mX. split.
  - assert (Hdev : MessageVerifier.device_mismatch v mB = true)
      by (vm_compute; reflexivity).
    split; [exact Hdev|].
    exact (proj1 (C2_verify_check_order (H := stub_runtime) v mB t2026) Hdev).
  - assert (Hdev : MessageVerifier.device_mismatch v mX = false)
      by (vm_compute; reflexivity).
    assert (Hrt : iso_roundtrip (H := stub_runtime) (t2026 + -10 * 1000000))
      by (vm_compute; reflexivity).
    assert (Httl : -10 < 0 /\ t2026 <= t2026) by (unfold t2026; lia).
    split; [exact Hdev|]. split; [exact Hrt|]. split; [exact Httl|].
    exact (proj2 (proj2 (proj2 (proj2
             (C2_verify_check_order (H := stub_runtime) v mX t2026))))
             signer "device-A" "informational" sample_content (-10) None t2026
             "msg-1" "n1" eq_refl Hdev Hrt (or_intror Httl)).
Defined.

(** The runs of the SDK's tests for a wrong device and an expired
    message. *)
Example verify_wrong_device_and_expired :
  let v := sample_verifier stub_runtime "device-A" in
  MessageVerifier.verify (H := stub_runtime)
    (sample_message stub_runtime "device-B" "informational" 300 "n1") t2026 v
  = (inl (ValueError "Message for device device-B, not device-A"), v)
  /\ MessageVerifier.verify (H := stub_runtime)
       (sample_message stub_runtime "device-A" "informational" (-10) "n1") t2026 v
     = (inl (MessageExpiredError "Message msg-1 expired at 2025-12-31T23:59:50Z"), v).
Proof. split; vm_compute; reflexivity. Qed.

(** C2, claim as stated: a message created with [ttl_seconds = 0] and
    verified at the clock reading of its creation is not rejected as
    expired; [verify] returns [True]. *)
Lemma C2_counterexample :
  (MessageVerifier.verify (H := stub_runtime)
     (sample_message stub_runtime "test" "informational" 0 "n1") t2026
     (sample_verifier stub_runtime "test")).1
  = inr true.
Proof. vm_compute. reflexivity. Qed.

(** A fresh message of the sample signer on the sample verifier meets the
    hypotheses, so its first [verify] succeeds and records the nonce. *)
Lemma sign_verify_once_witness :
  let signer := MessageSigner.init (H := stub_runtime) None "generated-key" in
  let m0 := SignedMessage.with_signature
              (sample_message stub_runtime "test" "informational" 300 "n1") None in
  let m := MessageSigner.sign (H := stub_runtime) signer m0 in
  let v := sample_verifier stub_runtime "test" in
  (MessageVerifier.paired (H := stub_runtime) signer v
   /\ MessageVerifier.device_mismatch v m = false
   /\ SignedMessage.is_expired (H := stub_runtime) m t2026 = inr false
   /\ SignedMessage.nonce m ∉ MessageVerifier._seen_nonces v)
  /\ MessageVerifier.verify (H := stub_runtime) m t2026 v
     = (inr true,
        MessageVerifier.set_seen v
          (MessageVerifier.recorded (H := stub_runtime) (SignedMessage.nonce m) v)).
Proof.
  intros signer m0 m v.
  assert (Hhyp : MessageVerifier.paired (H := stub_runtime) signer v
                 /\ MessageVerifier.device_mismatch v m = false
                 /\ SignedMessage.is_expired (H := stub_runtime) m t2026 = inr false
                 /\ SignedMessage.nonce m ∉ MessageVerifier._seen_nonces v).
  { split; [reflexivity|].
    split; [vm_compute; reflexivity|].
    split; [vm_compute; reflexivity|].
    apply not_elem_of_empty. }
  split; [exact Hhyp|].
  destruct Hhyp as (Hpair & Hdev & Hexp & Hnonce).
  apply (sign_verify_once (H := stub_runtime) None "generated-key" v m0 t2026
           Hpair Hdev Hexp Hnonce).
Defined.

(** The run of the SDK's replay test: the first [verify] returns [True]
    and records the nonce, the second raises [ReplayDetectedError]. *)
Example sign_verify_twice :
  let m := sample_message stub_runtime "test" "informational" 300 "n1" in
  let v := sample_verifier stub_runtime "test" in
  let v' := MessageVerifier.set_seen v {["n1"]} in
  MessageVerifier.verify (H := stub_runtime) m t2026 v = (inr true, v')
  /\ MessageVerifier.verify (H := stub_runtime) m t2026 v'
     = (inl (ReplayDetectedError "Nonce n1 already seen - replay attack?"), v').
Proof. split; vm_compute; reflexivity. Qed.

Lemma many_nonces_NoDup : NoDup many_nonces.
Proof. apply NoDup_fmap_2; [apply _|apply NoDup_seq]. Qed.

Lemma many_nonces_length : length many_nonces = 10000%nat.
Proof. unfold many_nonces. by rewrite length_fmap, length_seq. Qed.

Lemma zero_not_in_many_nonces : "0" ∉ many_nonces.
Proof.
  unfold many_nonces. rewrite list_elem_of_fmap.
  intros (k & Hk & Hin). change "0" with (pretty 0%nat) in Hk.
  apply (inj pretty) in Hk. subst k.
  apply elem_of_seq in Hin. lia.
Qed.

#[global] Opaque many_nonces.

(** C3, the code on a verifier that holds 10000 nonces and whose set
    enumerates the new nonce first, so among the 5000 elements it discards:
    the first [verify] of a fresh signed message succeeds and, meaning to
    remove the oldest half of the set, discards the nonce it has just
    recorded; the second [verify] of the same message succeeds as well
    instead of raising [ReplayDetectedError]. *)
Lemma C3_replay_after_eviction :
  let R := evicting_runtime "0" in
  let m := sample_message R "test" "informational" 300 "0" in
  let v := full_verifier R "test" in
  exists v1 v2,
    MessageVerifier.verify (H := R) m t2026 v = (inr true, v1)
    /\ MessageVerifier.verify (H := R) m t2026 v1 = (inr true, v2).
Proof.
  intros R m v. eexists _, _.
  unfold m, sample_message, MessageSigner.create_signed_message, sample_signer.
  apply (verify_twice_after_eviction (H := R) None "generated-key" _ t2026 v
           (elements (({["0"]} ∪ list_to_set many_nonces : gset string) ∖ {["0"]}))).
  - lazy; reflexivity.
  - lazy; reflexivity.
  - lazy; reflexivity.
  - change ("0" ∉ (list_to_set many_nonces : gset string)).
    rewrite elem_of_list_to_set. apply zero_not_in_many_nonces.
  - change (size (list_to_set many_nonces : gset string) = 10000%nat).
    rewrite size_list_to_set by apply many_nonces_NoDup.
    apply many_nonces_length.
  - change (2 <= 10000)%nat. apply Nat.leb_le. vm_compute. reflexivity.
  - change (order_first "0" ({["0"]} ∪ list_to_set many_nonces)
            = "0" :: elements
                       (({["0"]} ∪ list_to_set many_nonces : gset string) ∖ {["0"]})).
    unfold order_first. apply decide_True.
    apply elem_of_union_l, elem_of_singleton. reflexivity.
Qed.

(** The signed fields determine the payload dict, and conversely: two
    messages with the same payload dict differ in their signature at most. *)
Lemma Authorization_to_dict_inj (a b : Authorization.t) :
  (JStr <$> Authorization.to_dict a : gmap string Json)
  = JStr <$> Authorization.to_dict b ->
  a = b.
Proof.
  intros Heq.
  pose proof (f_equal (fun o : gmap string Json => o !! "operator_id") Heq) as H1.
  pose proof (f_equal (fun o : gmap string Json => o !! "timestamp") Heq) as H2.
  pose proof (f_equal (fun o : gmap string Json => o !! "method") Heq) as H3.
  vm_compute in H1, H2, H3. destruct a, b. cbn in *. congruence.
Qed.

Lemma payload_dict_inj (a1 a2 a3 a4 a5 a6 a7 a8 b1 b2 b3 b4 b5 b6 b7 b8 : Json) :
  (list_to_map [("message_id", a1); ("device_id", a2); ("timestamp", a3);
                ("expires", a4); ("nonce", a5); ("tier", a6); ("content", a7);
                ("authorizations", a8)] : gmap string Json)
  = list_to_map [("message_id", b1); ("device_id", b2); ("timestamp", b3);
                 ("expires", b4); ("nonce", b5); ("tier", b6); ("content", b7);
                 ("authorizations", b8)] ->
  [a1; a2; a3; a4; a5; a6; a7; a8] = [b1; b2; b3; b4; b5; b6; b7; b8].
Proof.
  intros Heq.
  pose proof (f_equal (fun o : gmap string Json => o !! "message_id") Heq) as H1.
  pose proof (f_equal (fun o : gmap string Json => o !! "device_id") Heq) as H2.
  pose proof (f_equal (fun o : gmap string Json => o !! "timestamp") Heq) as H3.
  pose proof (f_equal (fun o : gmap string Json => o !! "expires") Heq) as H4.
  pose proof (f_equal (fun o : gmap string Json => o !! "nonce") Heq) as H5.
  pose proof (f_equal (fun o : gmap string Json => o !! "tier") Heq) as H6.
  pose proof (f_equal (fun o : gmap string Json => o !! "content") Heq) as H7.
  pose proof (f_equal (fun o : gmap string Json => o !! "authorizations") Heq) as H8.
  clear Heq.
  vm_compute in H1, H2, H3, H4, H5, H6, H7, H8. congruence.
Qed.

Lemma payload_inj (m m' : SignedMessage.t) :
  SignedMessage.payload m = SignedMessage.payload m' ->
  SignedMessage.with_signature m None = SignedMessage.with_signature m' None.
Proof.
  unfold SignedMessage.payload. intros Heq.
  apply (f_equal json_object) in Heq. cbn [json_object] in Heq.
  apply payload_dict_inj in Heq.
  destruct m as [mid dev ts exp nonce tier content auths sig],
           m' as [mid' dev' ts' exp' nonce' tier' content' auths' sig'].
  unfold SignedMessage.with_signature. cbn in *.
  injection Heq as H1 H2 H3 H4 H5 H6 H7 H8.
  assert (auths = auths') as ->; [|congruence].
  revert H8. apply list_fmap_eq_inj. intros a b Hab.
  apply Authorization_to_dict_inj.
  by apply (f_equal json_object) in Hab.
Qed.

(** The payload dict of a message whose content is plain JSON reads back
    as it is. *)
Lemma json_reload_message_payload (m : SignedMessage.t) :
  json_reload <$> SignedMessage.content m = SignedMessage.content m ->
  json_reload (SignedMessage.payload m) = SignedMessage.payload m.
Proof.
  intros Hplain. unfold SignedMessage.payload. cbn [json_reload].
  f_equal. rewrite <- list_to_map_fmap. cbn [fmap list_fmap prod_map id json_reload fst snd].
  rewrite Hplain.
  assert (Hauth :
    json_reload <$> ((fun a => JObj (JStr <$> Authorization.to_dict a))
                       <$> SignedMessage.authorizations m)
    = (fun a => JObj (JStr <$> Authorization.to_dict a))
        <$> SignedMessage.authorizations m).
  { rewrite <- list_fmap_compose. apply list_fmap_ext. intros i a _. cbn.
    by f_equal. }
  by rewrite Hauth.
Qed.

(** When a JSON text reads back as one value, changing any signed field of
    a message whose content is plain JSON changes the canonical payload. *)
Lemma payload_changes_with_any_field `{Runtime} (m m' : SignedMessage.t) :
  json_dumps_faithful ->
  json_reload <$> SignedMessage.content m = SignedMessage.content m ->
  json_reload <$> SignedMessage.content m' = SignedMessage.content m' ->
  SignedMessage.with_signature m' None <> SignedMessage.with_signature m None ->
  SignedMessage.payload_for_signing m' <> SignedMessage.payload_for_signing m.
Proof.
  intros Hjson Hm Hm' Hne Heq. apply Hne, payload_inj.
  apply Hjson in Heq. by rewrite !json_reload_message_payload in Heq.
Qed.

(** C5: the tampering of the SDK's test.  The template of a signed message
    is replaced; the changed message meets the hypotheses, passes the first
    three checks and raises [SignatureError]. *)
Lemma C5_mutation_rejected_witness :
  let signer := MessageSigner.init (H := stub_runtime) None "generated-key" in
  let m0 := SignedMessage.with_signature
              (sample_message stub_runtime "test" "informational" 300 "n1") None in
  let m := MessageSigner.sign (H := stub_runtime) signer m0 in
  let m' := SignedMessage.with_content m
              (<["template_id" := JStr "hacked"]> (SignedMessage.content m)) in
  let v := sample_verifier stub_runtime "test" in
  (signature_binding (H := stub_runtime)
   /\ MessageVerifier.paired (H := stub_runtime) signer v
   /\ SignedMessage.signature m' = SignedMessage.signature m
   /\ SignedMessage.payload_for_signing (H := stub_runtime) m'
      <> SignedMessage.payload_for_signing (H := stub_runtime) m)
  /\ (MessageVerifier.device_mismatch v m' = false
      /\ SignedMessage.is_expired (H := stub_runtime) m' t2026 = inr false
      /\ SignedMessage.nonce m' ∉ MessageVerifier._seen_nonces v)
  /\ exists msg,
       MessageVerifier.verify (H := stub_runtime) m' t2026 v
       = (inl (SignatureError msg), v).
Proof.
  intros signer m0 m m' v.
  assert (Hbind : signature_binding (H := stub_runtime)).
  { intros p q Hpq. by apply (inj (String.append "sha256:")) in Hpq. }
  assert (Hpair : MessageVerifier.paired (H := stub_runtime) signer v)
    by reflexivity.
  assert (Hsig : SignedMessage.signature m' = SignedMessage.signature m)
    by reflexivity.
  assert (Hne : SignedMessage.payload_for_signing (H := stub_runtime) m'
                <> SignedMessage.payload_for_signing (H := stub_runtime) m).
  { vm_compute. intros Heq. discriminate Heq. }
  assert (Hdev : MessageVerifier.device_mismatch v m' = false)
    by (vm_compute; reflexivity).
  assert (Hexp : SignedMessage.is_expired (H := stub_runtime) m' t2026 = inr false)
    by (vm_compute; reflexivity).
  assert (Hnonce : SignedMessage.nonce m' ∉ MessageVerifier._seen_nonces v)
    by apply not_elem_of_empty.
  split; [by repeat split|]. split; [by repeat split|].
  exact (proj2 (C5_mutation_rejected (H := stub_runtime) None "generated-key"
                  v m0 m' t2026 Hbind Hpair Hsig Hne) Hdev Hexp Hnonce).
Defined.

(** The same tampering evaluated, without and with the [cryptography]
    package. *)
Example verify_tampered_content :
  let tampered R :=
    let m := sample_message R "test" "informational" 300 "n1" in
    SignedMessage.with_content m
      (<["template_id" := JStr "hacked"]> (SignedMessage.content m)) in
  MessageVerifier.verify (H := stub_runtime) (tampered stub_runtime) t2026
    (sample_verifier stub_runtime "test")
  = (inl (SignatureError "Invalid development stub signature"),
     sample_verifier stub_runtime "test")
  /\ MessageVerifier.verify (H := crypto_runtime) (tampered crypto_runtime) t2026
       (sample_verifier crypto_runtime "test")
     = (inl (SignatureError "Invalid signature for message msg-1"),
        sample_verifier crypto_runtime "test").
Proof. split; vm_compute; reflexivity. Qed.

(** C5, claim as stated: the device_id of a signed message is changed from
    device-A to device-B; on the verifier of device-A [verify] raises the
    device ValueError, not [SignatureError]. *)
Lemma C5_counterexample :
  let m := sample_message stub_runtime "device-A" "informational" 300 "n1" in
  let m' := SignedMessage.with_device_id m "device-B" in
  let v := sample_verifier stub_runtime "device-A" in
  MessageVerifier.verify (H := stub_runtime) m' t2026 v
  = (inl (ValueError "Message for device device-B, not device-A"), v).
Proof. vm_compute. reflexivity. Qed.

(** C4: a call that raises [ReplayDetectedError] leaves the seen-set as it
    was, and the successful call before it added the nonce. *)
Example verify_records_on_success_only :
  let m := sample_message stub_runtime "test" "informational" 300 "n1" in
  let v := sample_verifier stub_runtime "test" in
  let v' := (MessageVerifier.verify (H := stub_runtime) m t2026 v).2 in
  MessageVerifier._seen_nonces v' = {["n1"]}
  /\ (MessageVerifier.verify (H := stub_runtime) m t2026 v').2 = v'.
Proof. split; vm_compute; reflexivity. Qed.

#[local] Open Scope list_scope.

(* ================================================================== *)
(** * Verification: audit.py *)
(* ================================================================== *)

Section audit_facts.
Context `{Runtime}.
Import AuditLogger.

Lemma chained_app h es1 es2 :
  chained h (es1 ++ es2) <-> chained h es1 /\ chained (tip h es1) es2.
Proof.
  revert h. induction es1 as [|e es1 IH]; intros h; cbn; [tauto|].
  rewrite IH. tauto.
Qed.

Lemma tip_app h es1 es2 : tip h (es1 ++ es2) = tip (tip h es1) es2.
Proof. revert h. induction es1 as [|e es1 IH]; intros h; cbn; auto. Qed.

Lemma str_or_computed (c : string) : str_or (Some c) c = c.
Proof. unfold str_or. by case_decide. Qed.

Lemma str_or_hash (e : AuditEvent.t) (c : string) :
  str_or (Some (AuditEvent.compute_hash e)) c = AuditEvent.compute_hash e.
Proof.
  unfold str_or. case_decide as Hempty; [|done].
  by apply sha256_hexdigest_nonempty in Hempty.
Qed.

(** [chain_loop] reads a file part by part. *)
Lemma chain_loop_app l1 l2 h b :
  chain_loop (l1 ++ l2) h b
  = match chain_loop l1 h b with
    | Some (h', b') => chain_loop l2 h' b'
    | None => None
    end.
Proof.
  revert h b. induction l1 as [|[|e|] l1 IH]; intros h b; cbn; auto.
Qed.

(** On a chained file the loop flags nothing. *)
Lemma chain_loop_chained es h b :
  chained h es -> chain_loop (Entry <$> es) h b = Some (tip h es, b).
Proof.
  revert h. induction es as [|e es IH]; intros h; cbn; [done|].
  intros (Hprev & Hentry & Hrest).
  rewrite bool_decide_eq_false_2 by (by intros ?).
  rewrite bool_decide_eq_false_2 by (by intros ?).
  rewrite Hentry, str_or_computed. by apply IH.
Qed.

(** The record at each position of a chained file. *)
Lemma chained_lookup h es i e :
  chained h es -> es !! i = Some e ->
  AuditEvent.entry_hash e = Some (AuditEvent.compute_hash e)
  /\ AuditEvent.previous_hash e = tip h (take i es).
Proof.
  revert h i. induction es as [|e0 es IH]; intros h [|i]; cbn; try done.
  - intros (Hprev & Hentry & _) [= ->]. done.
  - intros (_ & _ & Hrest) Hi. by apply IH.
Qed.

Lemma tip_take_S h es i e :
  es !! i = Some e -> tip h (take (S i) es) = AuditEvent.compute_hash e.
Proof.
  intros Hi. rewrite (take_S_r _ _ _ Hi), tip_app. done.
Qed.

(** What [log] does to the logger and the file. *)
Lemma log_unfold self file event_type data timestamp now :
  let event :=
    {| AuditEvent.sequence := _sequence self + 1;
       AuditEvent.timestamp :=
         replace "+00:00" "Z" (isoformat (default now timestamp));
       AuditEvent.event_type := event_type_value event_type;
       AuditEvent.device_id := device_id self;
       AuditEvent.data := data;
       AuditEvent.previous_hash := _last_hash self;
       AuditEvent.entry_hash := None |} in
  let h := AuditEvent.compute_hash event in
  log self file event_type data timestamp now
  = (AuditEvent.with_entry_hash event (Some h),
     {| device_id := device_id self; _sequence := _sequence self + 1;
        _last_hash := h |},
     if file_append_ok now
     then Some ((default [] file
                   ++ [Entry (AuditEvent.stored
                                (AuditEvent.with_entry_hash event (Some h)))])%list)
     else file).
Proof. reflexivity. Qed.

Lemma compute_hash_with_entry_hash e h :
  AuditEvent.compute_hash (AuditEvent.with_entry_hash e h)
  = AuditEvent.compute_hash e.
Proof. reflexivity. Qed.

(** A record whose data are plain JSON is stored as it is. *)
Lemma stored_plain e :
  json_reload <$> AuditEvent.data e = AuditEvent.data e -> AuditEvent.stored e = e.
Proof. intros Hplain. destruct e. unfold AuditEvent.stored. cbn in *. by rewrite Hplain. Qed.

Lemma log_logged self file es event_type data timestamp now :
  kept (event_type, data, timestamp, now) ->
  logged self file es ->
  let '(event, self', file') := log self file event_type data timestamp now in
  logged self' file' (es ++ [event]) /\ file' <> None
  /\ AuditEvent.stored event = event.
Proof.
  intros [Hplain Hok] (Hfile & Hchain & Hlast & Hseq & Hnum). cbn in Hplain, Hok.
  rewrite log_unfold. cbv zeta. rewrite Hok, stored_plain by done.
  split; [|by split].
  split; [|split; [|split; [|split]]].
  - cbn. by rewrite Hfile, fmap_app.
  - apply chained_app. split; [done|]. cbn. by rewrite Hlast.
  - by rewrite tip_app.
  - cbn. rewrite length_app, Hseq. cbn. lia.
  - intros i e Hi. apply lookup_app_Some in Hi as [Hi|[Hlen Hi]].
    + by apply Hnum.
    + apply list_lookup_singleton_Some in Hi as [Hi <-]. cbn. lia.
Qed.

Lemma log_all_logged calls self file es :
  Forall kept calls ->
  logged self file es ->
  exists es',
    length es' = length calls
    /\ logged (log_all calls self file).1 (log_all calls self file).2 (es ++ es')
    /\ (calls <> [] -> (log_all calls self file).2 <> None)
    /\ Forall (fun e => AuditEvent.stored e = e) es'.
Proof.
  revert self file es.
  induction calls as [|[[[event_type data] timestamp] now] calls IH];
    intros self file es Hkept Hlogged.
  - exists []. rewrite app_nil_r. done.
  - apply Forall_cons_1 in Hkept as [Hcall Hkept]. cbn [log_all].
    pose proof (log_logged self file es event_type data timestamp now Hcall Hlogged)
      as Hstep.
    destruct (log self file event_type data timestamp now) as [[event self'] file'].
    destruct Hstep as (Hstep & Hsome & Hstored).
    destruct (IH self' file' _ Hkept Hstep) as (es' & Hlen & Hlogged' & Hnone & Hall).
    exists (event :: es'). split; [cbn; lia|]. split; [|split].
    + by rewrite <- app_assoc in Hlogged'.
    + intros _. destruct calls; [done|]. by apply Hnone.
    + by constructor.
Qed.

(** The record's own fields, [entry_hash] apart, can be read off the dict
    [compute_hash] serialises. *)
Lemma event_dict_inj (a1 a2 a3 a4 a5 a6 b1 b2 b3 b4 b5 b6 : Json) :
  (list_to_map [("sequence", a1); ("timestamp", a2); ("event_type", a3);
                ("device_id", a4); ("data", a5); ("previous_hash", a6)]
     : gmap string Json)
  = list_to_map [("sequence", b1); ("timestamp", b2); ("event_type", b3);
                 ("device_id", b4); ("data", b5); ("previous_hash", b6)] ->
  [a1; a2; a3; a4; a5; a6] = [b1; b2; b3; b4; b5; b6].
Proof.
  intros Heq.
  pose proof (f_equal (fun o : gmap string Json => o !! "sequence") Heq) as H1.
  pose proof (f_equal (fun o : gmap string Json => o !! "timestamp") Heq) as H2.
  pose proof (f_equal (fun o : gmap string Json => o !! "event_type") Heq) as H3.
  pose proof (f_equal (fun o : gmap string Json => o !! "device_id") Heq) as H4.
  pose proof (f_equal (fun o : gmap string Json => o !! "data") Heq) as H5.
  pose proof (f_equal (fun o : gmap string Json => o !! "previous_hash") Heq) as H6.
  clear Heq.
  vm_compute in H1, H2, H3, H4, H5, H6. congruence.
Qed.

Lemma event_payload_inj (e e' : AuditEvent.t) :
  AuditEvent.payload e = AuditEvent.payload e' ->
  AuditEvent.entry_hash e = AuditEvent.entry_hash e' ->
  e = e'.
Proof.
  unfold AuditEvent.payload. intros Heq Hentry.
  apply (f_equal json_object) in Heq. cbn [json_object] in Heq.
  apply event_dict_inj in Heq.
  destruct e, e'. cbn in *. congruence.
Qed.

(** Reading back the dict [compute_hash] serialises gives the dict of the
    stored record. *)
Lemma json_reload_payload (e : AuditEvent.t) :
  json_reload (AuditEvent.payload e) = AuditEvent.payload (AuditEvent.stored e).
Proof.
  unfold AuditEvent.payload, AuditEvent.stored.
  cbn [json_reload AuditEvent.sequence AuditEvent.timestamp AuditEvent.event_type
       AuditEvent.device_id AuditEvent.data AuditEvent.previous_hash].
  by f_equal.
Qed.

(** The digest covers every stored field but [entry_hash]: when SHA-256
    has no collisions and a JSON text reads back as one value, two records as
    they are read from a file, with the same [entry_hash] and the same
    digest, are the same record. *)
Lemma compute_hash_inj (e e' : AuditEvent.t) :
  sha256_collision_free -> json_dumps_faithful ->
  AuditEvent.stored e = e -> AuditEvent.stored e' = e' ->
  AuditEvent.entry_hash e = AuditEvent.entry_hash e' ->
  AuditEvent.compute_hash e = AuditEvent.compute_hash e' ->
  e = e'.
Proof.
  intros Hsha Hjson He He' Hentry Hdigest.
  apply Hsha, Hjson in Hdigest.
  rewrite !json_reload_payload, He, He' in Hdigest.
  by apply event_payload_inj.
Qed.

(** Replacing one record of a chained file by a record with the same
    [entry_hash] and another digest: the loop flags that record, once for
    the hash of its contents and once more if its link was changed, and
    nothing else. *)
Lemma chain_loop_tampered es k e e' h b :
  chained h es -> es !! k = Some e ->
  AuditEvent.entry_hash e' = AuditEvent.entry_hash e ->
  AuditEvent.compute_hash e' <> AuditEvent.compute_hash e ->
  chain_loop (Entry <$> <[k:=e']> es) h b
  = Some (tip h es,
          b ++ (if bool_decide (AuditEvent.previous_hash e'
                                ≠ AuditEvent.previous_hash e)
                then [AuditEvent.sequence e'] else [])
            ++ [AuditEvent.sequence e']).
Proof.
  intros Hchain Hk Hentry Hdigest.
  pose proof (chained_lookup h es k e Hchain Hk) as [Hhash Hprev].
  pose proof (lookup_lt_Some _ _ _ Hk) as Hlt.
  rewrite <- (take_drop_middle es k e Hk) in Hchain.
  apply chained_app in Hchain as [Hpre Hpost].
  cbn in Hpost. destruct Hpost as (_ & _ & Hpost).
  rewrite insert_take_drop by done.
  rewrite fmap_app, chain_loop_app, (chain_loop_chained _ _ _ Hpre).
  cbn [fmap list_fmap chain_loop].
  rewrite Hentry, Hhash, str_or_hash, <- Hprev.
  rewrite (bool_decide_eq_true_2 (Some _ ≠ Some _)) by congruence.
  rewrite (chain_loop_chained _ _ _ Hpost).
  assert (Htip : tip h es = tip (AuditEvent.compute_hash e) (drop (S k) es)).
  { rewrite <- (take_drop_middle es k e Hk) at 1. by rewrite tip_app. }
  rewrite Htip. f_equal. f_equal.
  case_bool_decide; by rewrite <- ?app_assoc.
Qed.

Lemma chain_loop_malformed (lines : list LogLine) k h b :
  (k < length lines)%nat ->
  (forall i, (i < k)%nat -> lines !! i <> Some Malformed) ->
  chain_loop (<[k:=Malformed]> lines) h b = None.
Proof.
  revert k h b. induction lines as [|l lines IH]; intros [|k] h b; cbn;
    try lia; [done|].
  intros Hlt Hbefore.
  assert (Hrest : chain_loop (<[k:=Malformed]> lines) h b = None
                  /\ forall h' b', chain_loop (<[k:=Malformed]> lines) h' b' = None).
  { split; intros; apply IH; try lia; intros i Hi; apply (Hbefore (S i)); lia. }
  destruct l; [apply Hrest..|].
  exfalso. by apply (Hbefore 0%nat); [lia|].
Qed.

End audit_facts.

Section audit_claims.
Context `{Runtime}.
Import AuditLogger.

Lemma init_empty fuel clock device file0 :
  default [] file0 = [] ->
  init (S fuel) clock device file0 = Some (fresh device, file0).
Proof.
  destruct file0 as [lines|]; cbn; [|done]. by intros ->.
Qed.

(** C6 (as amended). Starting from no log file or an empty one, take any
    run of [log] calls whose data are plain JSON (they read back from the
    file as they were written) and whose writes go through.  The file then
    holds one record per call, numbered from 1; the first record's
    [previous_hash] is the all-zero genesis value, each later record's
    [previous_hash] is the [entry_hash] of the record before it, and each
    [entry_hash] is the hash of the record's canonical encoding without
    [entry_hash]; [verify_chain] returns [(True, [])] (after at least one
    call, or on an existing empty file).  When SHA-256 has no collisions and
    a JSON text reads back as one value, changing any stored field of one
    record but [entry_hash], the line still being read as a record [e'],
    makes [verify_chain] return [False] and flag that record only, under the
    sequence number the record then carries (twice when its [previous_hash]
    was changed); a line that no longer parses makes it return
    [(False, [-1])]. *)
Theorem C6_hash_chain (device : string)
    (calls : list (AuditEventType * gmap string Json * option Z * Z))
    (file0 : LogFile) :
  default [] file0 = [] ->
  Forall kept calls ->
  (forall fuel clock,
      init (S fuel) clock device file0 = Some (fresh device, file0))
  /\ exists es : list AuditEvent.t,
      let file := (log_all calls (fresh device) file0).2 in
      default [] file = Entry <$> es
      /\ length es = length calls
      /\ (forall i e, es !! i = Some e ->
            AuditEvent.sequence e = Z.of_nat i + 1
            /\ AuditEvent.entry_hash e = Some (AuditEvent.compute_hash e))
      /\ (forall e, es !! 0%nat = Some e ->
            AuditEvent.previous_hash e = GENESIS_HASH)
      /\ (forall i e e', es !! i = Some e -> es !! S i = Some e' ->
            Some (AuditEvent.previous_hash e') = AuditEvent.entry_hash e)
      /\ (calls <> [] \/ file0 = Some [] -> verify_chain file = (true, []))
      /\ (sha256_collision_free -> json_dumps_faithful ->
          forall k e e',
            es !! k = Some e ->
            AuditEvent.stored e' = e' ->
            AuditEvent.entry_hash e' = AuditEvent.entry_hash e ->
            e' <> e ->
            verify_chain (Some (Entry <$> <[k:=e']> es))
            = (false,
               (if bool_decide (AuditEvent.previous_hash e'
                                ≠ AuditEvent.previous_hash e)
                then [AuditEvent.sequence e'] else [])
                 ++ [AuditEvent.sequence e']))
      /\ (forall k, (k < length es)%nat ->
            verify_chain (Some (<[k:=Malformed]> (Entry <$> es))) = (false, [-1])).
Proof.
  intros Hempty Hkept. split; [intros; by apply init_empty|].
  assert (Hstart : logged (fresh device) file0 []).
  { split; [done|]. by repeat split. }
  destruct (log_all_logged calls _ _ _ Hkept Hstart)
    as (es & Hlen & Hlogged & Hsome & Hstored).
  cbn [app] in Hlogged. destruct Hlogged as (Hfile & Hchain & Hlast & Hseq & Hnum).
  exists es. cbv zeta.
  split; [done|]. split; [done|]. split; [|split; [|split; [|split; [|split]]]].
  - intros i e Hi. split; [by apply Hnum|].
    by destruct (chained_lookup _ _ _ _ Hchain Hi).
  - intros e Hi. by destruct (chained_lookup _ _ _ _ Hchain Hi).
  - intros i e e' Hi Hi'.
    destruct (chained_lookup _ _ _ _ Hchain Hi) as [-> _].
    destruct (chained_lookup _ _ _ _ Hchain Hi') as [_ ->].
    by rewrite (tip_take_S _ _ _ _ Hi).
  - intros Hnonempty.
    assert (Hfile' : (log_all calls (fresh device) file0).2 = Some (Entry <$> es)).
    { destruct Hnonempty as [Hcalls| ->].
      - destruct (log_all calls (fresh device) file0).2 eqn:Hf; [|by apply Hsome in Hcalls].
        cbn in Hfile. by rewrite Hfile.
      - destruct calls; [|destruct (log_all _ _ _).2 eqn:Hf; [cbn in Hfile; by rewrite Hfile|by exfalso; apply Hsome]].
        cbn in *. destruct es; [done|]. done. }
    rewrite Hfile'. unfold verify_chain.
    by rewrite (chain_loop_chained _ _ _ Hchain).
  - intros Hsha Hjson k e e' Hk Hread Hentry Hne.
    assert (Hdigest : AuditEvent.compute_hash e' <> AuditEvent.compute_hash e).
    { intros Heq. apply Hne.
      apply (compute_hash_inj e' e Hsha Hjson Hread); [|done..].
      by apply (Forall_lookup_1 _ _ _ _ Hstored Hk). }
    unfold verify_chain.
    rewrite (chain_loop_tampered _ _ _ _ _ _ Hchain Hk Hentry Hdigest).
    cbn [app]. rewrite bool_decide_eq_false_2; [done|].
    rewrite length_app. cbn. lia.
  - intros k Hk. unfold verify_chain.
    rewrite chain_loop_malformed; [done|by rewrite length_fmap|].
    intros i _. rewrite list_lookup_fmap. by destruct (es !! i).
Qed.
End audit_claims.

(** ** The audit log: concrete runs *)

Lemma entries_fmap_Entry (es : list AuditEvent.t) : entries (Entry <$> es) = es.
Proof. induction es as [|e es IH]; cbn; [done|]. by f_equal. Qed.

Lemma alter_as_insert {A} (f : A -> A) (l : list A) (i : nat) (x : A) :
  l !! i = Some x -> alter f i l = <[i := f x]> l.
Proof.
  revert i. induction l as [|y l IH]; intros [|i]; cbn; try done.
  - by intros [= ->].
  - intros Hi. f_equal. by apply IH.
Qed.

(** ** The one-to-one encoder *)

Lemma sum_list_elem_of (n : nat) (l : list nat) : n ∈ l -> (n <= sum_list l)%nat.
Proof.
  induction 1 as [|? ? ? _ IH]; cbn; lia.
Qed.

Lemma json_size_member `{Countable K} (o : gmap K Json) (k : K) (v : Json) :
  o !! k = Some v ->
  (json_size v <= sum_list ((map_to_list (json_size <$> o)).*2))%nat.
Proof.
  intros Hk. apply sum_list_elem_of.
  apply list_elem_of_fmap. exists (k, json_size v). split; [done|].
  apply elem_of_map_to_list. by rewrite lookup_fmap, Hk.
Qed.

(** Induction on values: a list and a dict are reached from their
    members. *)
Lemma Json_induction (P : Json -> Prop) :
  P JNull -> (forall b, P (JBool b)) -> (forall z, P (JInt z)) ->
  (forall f, P (JFloat f)) -> (forall s, P (JStr s)) ->
  (forall l, Forall P l -> P (JArr l)) ->
  (forall o, map_Forall (fun _ => P) o -> P (JObj o)) ->
  (forall o, map_Forall (fun _ => P) o -> P (JIntObj o)) ->
  forall v, P v.
Proof.
  intros Hnull Hbool Hint Hfloat Hstr Harr Hobj Hintobj v.
  remember (json_size v) as n eqn:Hn. revert v Hn.
  induction n as [n IH] using lt_wf_ind. intros v ->.
  destruct v as [|b|z|f|s|l|o|o]; auto.
  - apply Harr. apply Forall_lookup_2. intros i x Hx.
    apply (IH (json_size x)); [|done]. cbn.
    assert (json_size x <= sum_list (json_size <$> l))%nat; [|lia].
    apply sum_list_elem_of, list_elem_of_fmap. exists x.
    split; [done|]. by apply list_elem_of_lookup_2 in Hx.
  - apply Hobj. intros k x Hk. apply (IH (json_size x)); [|done]. cbn.
    pose proof (json_size_member o k x Hk). lia.
  - apply Hintobj. intros k x Hk. apply (IH (json_size x)); [|done]. cbn.
    pose proof (json_size_member o k x Hk). lia.
Qed.


Lemma float_tree_inj (f g : float) : float_tree f = float_tree g -> f = g.
Proof.
  unfold float_tree. intros Heq. apply Prim2SF_inj.
  destruct (Prim2SF f) as [[]|[]| |[] ? ?], (Prim2SF g) as [[]|[]| |[] ? ?];
    congruence.
Qed.

Lemma json_tree_members_inj `{Countable K} (key : K -> Z + string)
    (o o' : gmap K Json) :
  Inj (=) (=) key ->
  map_Forall (fun _ v => forall w, json_tree v = json_tree w -> v = w) o ->
  (fun kv : K * gen_tree (Z + string) => GenNode 0 [GenLeaf (key kv.1); kv.2])
    <$> map_to_list (json_tree <$> o)
  = (fun kv : K * gen_tree (Z + string) => GenNode 0 [GenLeaf (key kv.1); kv.2])
      <$> map_to_list (json_tree <$> o') ->
  o = o'.
Proof.
  intros Hkey IH Heq.
  assert (Hlists : map_to_list (json_tree <$> o) = map_to_list (json_tree <$> o')).
  { revert Heq. apply list_fmap_eq_inj. intros [k t] [k' t'] Hkt. cbn in Hkt.
    injection Hkt as Hk ->. by apply Hkey in Hk as ->. }
  assert (Hmaps : json_tree <$> o = json_tree <$> o')
    by (apply map_to_list_inj; by rewrite Hlists).
  clear Hlists. rename Hmaps into Hlists.
  apply map_eq. intros k.
  pose proof (f_equal (fun m => m !! k) Hlists) as Hk. cbn in Hk.
  rewrite !lookup_fmap in Hk.
  destruct (o !! k) as [v|] eqn:Hv, (o' !! k) as [v'|] eqn:Hv'; cbn in Hk;
    try done.
  injection Hk as Hk. f_equal. by apply (IH k v Hv).
Qed.

Lemma json_tree_inj (v w : Json) : json_tree v = json_tree w -> v = w.
Proof.
  revert w. induction v as [|b|z|f|s|l IH|o IH|o IH] using Json_induction;
    intros w Heq;
    (destruct w as [|b'|z'|f'|s'|l'|o'|o']; cbn in Heq;
     try discriminate Heq; try (destruct b'; discriminate Heq);
     try (destruct b; discriminate Heq)).
  - done.
  - destruct b, b'; by try discriminate Heq.
  - by injection Heq as ->.
  - injection Heq as Heq. by apply float_tree_inj in Heq as ->.
  - by injection Heq as ->.
  - injection Heq as Heq. f_equal.
    revert l' Heq. induction IH as [|x l Hx _ IHl]; intros [|x' l'] Heq;
      try done.
    injection Heq as Hx' Hl. f_equal; [by apply Hx|by apply IHl].
  - injection Heq as Heq. f_equal.
    by apply (json_tree_members_inj inr o o' _ IH).
  - injection Heq as Heq. f_equal.
    by apply (json_tree_members_inj inl o o' _ IH).
Qed.

Lemma canonical_json_dumps_inj : Inj (=) (=) canonical_json_dumps.
Proof.
  intros v w Heq. unfold canonical_json_dumps in Heq.
  apply (inj pretty) in Heq. injection Heq as Heq.
  apply (inj encode) in Heq. by apply json_tree_inj.
Qed.

(** C6: the three [log] calls of the SDK's test on a logger without a
    file, on a runtime whose digest and encoder are one-to-one, meet the
    hypotheses; the chain they leave verifies, and changing any field but
    [entry_hash] of any one of the three records is flagged. *)
Lemma C6_hash_chain_witness :
  let R := canonical_runtime in
  let file := (AuditLogger.log_all (H := R) sample_log_calls
                 (AuditLogger.fresh "test") None).2 in
  (default [] (None : LogFile) = []
   /\ Forall (kept (H := R)) sample_log_calls
   /\ sha256_collision_free (H := R)
   /\ json_dumps_faithful (H := R))
  /\ AuditLogger.verify_chain (H := R) file = (true, [])
  /\ exists es : list AuditEvent.t,
       default [] file = Entry <$> es
       /\ length es = 3%nat
       /\ forall k e e',
            es !! k = Some e ->
            AuditEvent.stored e' = e' ->
            AuditEvent.entry_hash e' = AuditEvent.entry_hash e ->
            e' <> e ->
            AuditLogger.verify_chain (H := R) (Some (Entry <$> <[k:=e']> es))
            = (false,
               (if bool_decide (AuditEvent.previous_hash e'
                                ≠ AuditEvent.previous_hash e)
                then [AuditEvent.sequence e'] else [])
                 ++ [AuditEvent.sequence e']).
Proof.
  intros R file.
  assert (Hkept : Forall (kept (H := R)) sample_log_calls).
  { repeat constructor; vm_compute; reflexivity. }
  assert (Hsha : sha256_collision_free (H := R)).
  { intros p q Hpq. by apply (inj (String.append "sha256:")) in Hpq. }
  assert (Hjson : json_dumps_faithful (H := R)).
  { intros v w Hvw. by apply canonical_json_dumps_inj in Hvw as ->. }
  split; [by repeat split|].
  destruct (C6_hash_chain (H := R) "test" sample_log_calls None eq_refl Hkept)
    as [_ (es & Hthm)].
  cbv zeta in Hthm.
  destruct Hthm as (Hfile & Hlen & _ & _ & _ & Hok & Htamper & _).
  split.
  - apply Hok. left. discriminate.
  - exists es. split; [exact Hfile|]. split; [exact Hlen|].
    exact (Htamper Hsha Hjson).
Defined.

(** The runs of the SDK's audit tests: three [log] calls verify; after the
    version in the first record is overwritten, [verify_chain] flags
    sequence number 1. *)
Example verify_chain_runs :
  let file := sample_log_file stub_runtime in
  AuditLogger.verify_chain (H := stub_runtime) file = (true, [])
  /\ AuditLogger.verify_chain (H := stub_runtime)
       (alter (map_entry hack_version) 0%nat <$> file) = (false, [1])
  /\ AuditLogger.verify_chain (H := stub_runtime) None = (false, [-1]).
Proof. repeat split; vm_compute; reflexivity. Qed.

(** Data that do not read back as they were written: a dict with the
    integer keys 2 and 10 is hashed with its keys in the order 2, 10 and read
    back with the string keys in the order "10", "2".  [verify_chain] flags
    the record on the untouched log. *)
Example verify_chain_integer_keys :
  let data : gmap string Json :=
    {["counts" := JIntObj (list_to_map [(2, JStr "a"); (10, JStr "b")])]} in
  let file := (AuditLogger.log (H := stub_runtime) (AuditLogger.fresh "test") None
                 SYSTEM_BOOT data None t2026).2 in
  json_reload <$> data
  = {["counts" := JObj (list_to_map [("2", JStr "a"); ("10", JStr "b")])]}
  /\ AuditLogger.verify_chain (H := stub_runtime) file = (false, [1]).
Proof. split; vm_compute; reflexivity. Qed.

(** A write that does not go through: the second of three [log] calls
    leaves no line, the logger moves on all the same, and the third record
    links to a record that is not in the file.  [verify_chain] flags it. *)
Example verify_chain_after_failed_write :
  let R := full_disk_runtime in
  let calls :=
    [(SYSTEM_BOOT, {["version" := JStr "1.0"]}, None, t2026);
     (MESSAGE_DISPLAYED, {["message_id" := JStr "msg-1"]}, None, t2026 + 1);
     (MESSAGE_DISPLAYED, {["message_id" := JStr "msg-2"]}, None, t2026 + 2)] in
  let out := AuditLogger.log_all (H := R) calls (AuditLogger.fresh "test") None in
  AuditLogger._sequence out.1 = 3
  /\ (AuditEvent.sequence <$> entries (default [] out.2)) = [1; 3]
  /\ AuditLogger.verify_chain (H := R) out.2 = (false, [3]).
Proof. split; [|split]; vm_compute; reflexivity. Qed.

(** C6, claim as stated: the sequence field of the second of the three
    records, which is 2, is changed to 3; [verify_chain] flags 3, and
    sequence number 2 is not in the list. *)
Lemma C6_counterexample :
  let file := sample_log_file stub_runtime in
  (AuditEvent.sequence <$> entries (default [] file)) = [1; 2; 3]
  /\ AuditLogger.verify_chain (H := stub_runtime)
       (alter (map_entry (fun e => AuditEvent.with_sequence e 3)) 1%nat <$> file)
     = (false, [3]).
Proof. split; vm_compute; reflexivity. Qed.

(** ** Loading an existing log *)

Section load_facts.
Context `{Runtime}.
Import AuditLogger.

Lemma load_loop_links_ok fuel clock self (pre : list LogLine) es :
  links_ok (_last_hash self) es ->
  load_loop (S (length es) + fuel) (length pre) clock self (pre ++ (Entry <$> es))
  = Some (true, loaded self es, pre ++ (Entry <$> es)).
Proof.
  revert self pre. induction es as [|e es IH]; intros self pre Hlinks.
  - cbn. rewrite app_nil_r. by rewrite lookup_ge_None_2.
  - destruct Hlinks as [Hprev Hrest].
    cbn [length Nat.add load_loop fmap list_fmap].
    rewrite list_lookup_middle by done.
    rewrite bool_decide_eq_false_2 by (by intros Hne; apply Hne).
    specialize (IH {| device_id := device_id self;
                      _sequence := AuditEvent.sequence e;
                      _last_hash := str_or (AuditEvent.entry_hash e)
                                      (AuditEvent.compute_hash e) |}
                   (pre ++ [Entry e]) Hrest).
    rewrite length_app, Nat.add_1_r, <- app_assoc in IH. exact IH.
Qed.

(** A record whose link is broken: the loader logs a [TAMPER_DETECTED] event,
    which, when the write goes through, lands at the end of the file it is
    reading, and reads on. *)
Lemma load_loop_link_break fuel pos clock self lines e :
  lines !! pos = Some (Entry e) ->
  AuditEvent.previous_hash e <> _last_hash self ->
  load_loop (S fuel) pos clock self lines
  = load_loop fuel (S pos) clock
      {| device_id := device_id self;
         _sequence := AuditEvent.sequence e;
         _last_hash := str_or (AuditEvent.entry_hash e) (AuditEvent.compute_hash e) |}
      (if file_append_ok (clock pos)
       then lines ++ [Entry (log self (Some lines) TAMPER_DETECTED
                               (list_to_map
                                  [("sequence", JInt (AuditEvent.sequence e));
                                   ("expected_hash", JStr (_last_hash self));
                                   ("actual_hash", JStr (AuditEvent.previous_hash e))])
                               None (clock pos)).1.1]
       else lines).
Proof.
  intros Hpos Hbreak. cbn [load_loop]. rewrite Hpos.
  rewrite bool_decide_eq_true_2 by done.
  rewrite log_unfold. cbv zeta. by destruct (file_append_ok (clock pos)).
Qed.

End load_facts.

Section load_claims.
Context `{Runtime}.
Import AuditLogger.

(** C9, the code on a log whose records all link to the running hash but
    whose entry hashes need not match: the loader reads the file to its end
    and leaves it as it was.  In particular a record whose [entry_hash] does
    not match its recomputed hash is not recorded as a [TAMPER_DETECTED]
    event, unlike a record whose [previous_hash] does not match. *)
Theorem C9_entry_hash_mismatch_unrecorded (fuel : nat) (clock : nat -> Z)
    (device : string) (es : list AuditEvent.t) :
  links_ok GENESIS_HASH es ->
  init (S (length es) + fuel) clock device (Some (Entry <$> es))
  = Some (loaded (fresh device) es, Some (Entry <$> es)).
Proof.
  intros Hlinks. unfold init, _load_existing.
  pose proof (load_loop_links_ok fuel clock (fresh device) [] es Hlinks) as Hload.
  cbn [length app] in Hload. by rewrite Hload.
Qed.
End load_claims.

(** C9: the file of the SDK's tamper test.  The version in the first
    record's data was overwritten, so its [entry_hash] no longer matches;
    every link still holds, and the loader records nothing. *)
Lemma C9_entry_hash_mismatch_unrecorded_witness :
  let es := alter hack_version 0%nat
              (entries (default [] (sample_log_file stub_runtime))) in
  (links_ok (H := stub_runtime) AuditLogger.GENESIS_HASH es
   /\ exists e, es !! 0%nat = Some e
        /\ AuditEvent.entry_hash e
           <> Some (AuditEvent.compute_hash (H := stub_runtime) e))
  /\ AuditLogger.init (H := stub_runtime) (S (length es) + 0) (fun _ => t2026)
       "test" (Some (Entry <$> es))
     = Some (loaded (H := stub_runtime) (AuditLogger.fresh "test") es,
             Some (Entry <$> es)).
Proof.
  intros es.
  assert (Hlinks : links_ok (H := stub_runtime) AuditLogger.GENESIS_HASH es).
  { vm_compute. repeat split. }
  split.
  - split; [exact Hlinks|].
    destruct (es !! 0%nat) as [e|] eqn:He; [|vm_compute in He; discriminate He].
    exists e. split; [reflexivity|].
    vm_compute in He. injection He as <-. vm_compute. intros Heq. discriminate Heq.
  - exact (C9_entry_hash_mismatch_unrecorded (H := stub_runtime) 0 (fun _ => t2026)
             "test" es Hlinks).
Defined.

(** A log whose first record was cut off: the second record's link is
    broken.  Each [TAMPER_DETECTED] event the loader appends is a line it
    reads next, and its link is broken in turn: after six lines the loader
    has still not reached the end of the file, which held two lines. *)
Example load_chases_its_own_events :
  let lines := drop 1 (default [] (sample_log_file stub_runtime)) in
  AuditLogger.init (H := stub_runtime) 6 (fun _ => t2026) "test" (Some lines) = None.
Proof. vm_compute. reflexivity. Qed.

(* ================================================================== *)
(** * Verification: secure_engine.py *)
(* ================================================================== *)

Section engine_facts.
Context `{Runtime} {B : Type} `{SecureDisplayBackend B}.
Import SecureDisplayEngine.

Lemma set_verifier_same (self : t B) : set_verifier self (verifier self) = self.
Proof. by destruct self. Qed.


End engine_facts.

Section engine_claims.
Context `{Runtime} {B : Type} `{SecureDisplayBackend B}.
Import SecureDisplayEngine.

(** C1, the code on a message for this device whose [expires] string
    carries no UTC offset: [is_expired] compares a naive datetime with an
    aware one, the [TypeError] passes through [verify] and through
    [display], which catches four other exceptions.  No failure result is
    returned, and the engine is left as it was: the backend is not called,
    but no audit record is written and the reject callback is not called. *)
Theorem C1_display_naive_expiry_escapes (message : SignedMessage.t)
    (now now_verify now_audit t : Z) (self : SecureDisplayEngine.t B) :
  MessageVerifier.device_mismatch (verifier self) message = false ->
  fromisoformat (replace "Z" "+00:00" (SignedMessage.expires message)) = IsoNaive t ->
  display message now now_verify now_audit self
  = (inl (TypeError "can't compare offset-naive and offset-aware datetimes"), self).
Proof.
  intros Hdev Hiso. unfold display.
  rewrite verify_unfold, Hdev. unfold SignedMessage.is_expired. rewrite Hiso.
  by rewrite set_verifier_same.
Qed.

End engine_claims.

Section engine_gates.
Context `{Runtime} {B : Type} `{SecureDisplayBackend B}.
Import SecureDisplayEngine.




End engine_gates.

(** C1: a message of the sample signer for the engine's device whose
    expiry was written without offset. *)
Lemma C1_display_naive_expiry_escapes_witness :
  let message :=
    SignedMessage.with_expires
      (sample_message stub_runtime "test" "informational" 300 "n1")
      "2030-01-01T00:00:00" in
  let self := sample_engine stub_runtime in
  (MessageVerifier.device_mismatch (SecureDisplayEngine.verifier self) message = false
   /\ fromisoformat (Runtime := stub_runtime)
        (replace "Z" "+00:00" (SignedMessage.expires message))
      = IsoNaive 1893456000000000)
  /\ SecureDisplayEngine.display (H := stub_runtime)
       (H0 := spy_backend (fun _ => RenderReturned true))
       message t2026 t2026 t2026 self
     = (inl (TypeError "can't compare offset-naive and offset-aware datetimes"), self).
Proof.
  intros message self.
  assert (Hdev : MessageVerifier.device_mismatch
                   (SecureDisplayEngine.verifier self) message = false)
    by (vm_compute; reflexivity).
  assert (Hiso : fromisoformat (Runtime := stub_runtime)
                   (replace "Z" "+00:00" (SignedMessage.expires message))
                 = IsoNaive 1893456000000000)
    by (vm_compute; reflexivity).
  split; [by split|].
  exact (C1_display_naive_expiry_escapes (H := stub_runtime)
           (H0 := spy_backend (fun _ => RenderReturned true))
           message t2026 t2026 t2026 1893456000000000 self Hdev Hiso).
Defined.

(** The same run on a spy backend, next to that of a message whose expiry
    is not a date at all: the second is rejected with a failure result, an
    audit record and no call of the backend. *)
Example display_naive_and_malformed_expiry :
  let m := sample_message stub_runtime "test" "informational" 300 "n1" in
  let self := sample_engine stub_runtime in
  let spy := spy_backend (fun _ => RenderReturned true) in
  let out1 := SecureDisplayEngine.display (H := stub_runtime) (H0 := spy)
                (SignedMessage.with_expires m "2030-01-01T00:00:00")
                t2026 t2026 t2026 self in
  let out2 := SecureDisplayEngine.display (H := stub_runtime) (H0 := spy)
                (SignedMessage.with_expires m "tomorrow")
                t2026 t2026 t2026 self in
  (out1.1 = inl (TypeError "can't compare offset-naive and offset-aware datetimes")
   /\ SecureDisplayEngine.backend out1.2 = []
   /\ SecureDisplayEngine.audit_file out1.2 = None)
  /\ (out2.1 = inr {| success := false; message_id := Some "msg-1";
                      error := Some "Invalid message: Invalid isoformat string: 'tomorrow'";
                      displayed_at := None |}
      /\ SecureDisplayEngine.backend out2.2 = []
      /\ length (default [] (SecureDisplayEngine.audit_file out2.2)) = 1%nat).
Proof.
  split; [split; [|split]|split; [|split]]; vm_compute; reflexivity.
Qed.

(** ** The gates: concrete runs *)




(** The runs of the SDK's engine tests on the spy backend: a valid message
    is rendered and logged, a replay of it and an unsigned message are not
    rendered. *)
Example display_runs :
  let m := crowd_message stub_runtime in
  let self := sample_engine stub_runtime in
  let out1 := SecureDisplayEngine.display (H := stub_runtime) (H0 := accepting_spy)
                m t2026 t2026 t2026 self in
  let out2 := SecureDisplayEngine.display (H := stub_runtime) (H0 := accepting_spy)
                m t2026 t2026 t2026 out1.2 in
  let out3 := SecureDisplayEngine.display (H := stub_runtime) (H0 := accepting_spy)
                (SignedMessage.with_signature m None) t2026 t2026 t2026 self in
  (out1.1 = inr {| success := true; message_id := Some "msg-1"; error := None;
                   displayed_at := Some "2026-01-01T00:00:00+00:00" |}
   /\ SecureDisplayEngine.backend out1.2 = [SignedMessage.content m])
  /\ (out2.1
      = inr {| success := false; message_id := Some "msg-1";
               error := Some "Replay attack detected: Nonce n1 already seen - replay attack?";
               displayed_at := None |}
      /\ SecureDisplayEngine.backend out2.2 = [SignedMessage.content m]
      /\ length (default [] (SecureDisplayEngine.audit_file out2.2)) = 2%nat)
  /\ (out3.1
      = inr {| success := false; message_id := Some "msg-1";
               error := Some "Signature verification failed: Message has no signature";
               displayed_at := None |}
      /\ SecureDisplayEngine.backend out3.2 = []).
Proof.
  split; [split|split; [split; [|split]|split]]; vm_compute; reflexivity.
Qed.
